(** * adc_mic.read: a shallow embedding of [src/c_mpos/src/adc_mic.c]

    The module has one entry point, [adc_mic_read], which validates its
    arguments, brings up an ADC codec device, allocates a sample buffer,
    reads one chunk while tracking min/max, tears everything down and
    returns the chunk as a bytes object.

    Target: ESP32 (ILP32, little endian).  [int], [size_t] and MicroPython's
    [mp_int_t] are 32 bits wide; [int16_t] is two bytes, low byte first.

    The driver, the allocator, the watchdog and the scheduler are external.
    Every call into them is recorded as an [event] in a trace, and what they
    answer comes from a [driver] record of oracles.  [ADC_MIC_DEBUG_PRINT]
    only prints; it is left out of the trace.  The runtime's
    [mp_obj_new_bytes] allocates on the MicroPython heap and leaves by
    [MemoryError] when that heap is exhausted; whether it finds room is one
    more oracle of the [driver] record. *)

From Stdlib Require Import ZArith Lia.
From Stdlib.Strings Require Import Byte.
From stdpp Require Import base list strings.

Open Scope Z_scope.

(** ** Machine integers *)

Module CInt.

Definition SIZE_MOD : Z := 2 ^ 32.
Definition INT_MIN : Z := - 2 ^ 31.
Definition INT_MAX : Z := 2 ^ 31 - 1.

(** Conversion of an integer value to [size_t] (C11 6.3.1.3: reduced
    modulo 2^32). This is what [i < adc_channel_num] does to its [int]
    operand when [i] is a [size_t]. *)
Definition to_size_t (x : Z) : Z := x mod SIZE_MOD.

(** [(uint8_t)x] *)
Definition to_uint8_t (x : Z) : Z := x mod 256.

(** [a * b] on [size_t] operands. *)
Definition size_mul (a b : Z) : Z := (a * b) mod SIZE_MOD.

Definition in_int (x : Z) : bool := (INT_MIN <=? x) && (x <=? INT_MAX).

(** Conversion of a [size_t] value to [int], as an argument passed for an
    [int] parameter is converted: values from 2^31 on come out negative. *)
Definition to_int (x : Z) : Z := (x + 2 ^ 31) mod SIZE_MOD - 2 ^ 31.

End CInt.
Import CInt.

(** ** Arguments

    The six positional arguments after [mp_obj_get_int] /
    [mp_obj_get_array]: each scalar is an [mp_int_t], the channel list is a
    sequence of integers. *)

Record args := Args {
  arg_chunk_samples : Z;       (* args[0] *)
  arg_unit_id : Z;             (* args[1] *)
  arg_channel_list : list Z;   (* args[2] *)
  arg_adc_channel_num : Z;     (* args[3] *)
  arg_sample_rate_hz : Z;      (* args[4] *)
  arg_atten : Z                (* args[5] *)
}.

(** [size_t chunk_samples = mp_obj_get_int(args[0]);] *)
Definition chunk_samples (a : args) : Z := to_size_t (arg_chunk_samples a).

(** [channel_list_len], as [mp_obj_get_array] reports it. *)
Definition channel_list_len (a : args) : Z := Z.of_nat (length (arg_channel_list a)).

(** What the 32-bit runtime can hand over: scalars in [mp_int_t] range and a
    sequence that fits the address space (one 4-byte word per item). *)
Definition wf_args (a : args) : bool :=
  in_int (arg_chunk_samples a) && in_int (arg_unit_id a) &&
  in_int (arg_adc_channel_num a) && in_int (arg_sample_rate_hz a) &&
  in_int (arg_atten a) && (channel_list_len a <? 2 ^ 30).

(** ** Runtime values and exceptions *)

(** The object handles [adc_mic_read] deals with.  [MP_OBJ_NULL] is the null
    handle a C truth test sees as false; [mp_const_none] is the handle of
    Python's [None] singleton, a real object (py/obj.h defines it as the
    address of [mp_const_none_obj], or as a non-zero immediate), hence
    distinct from [MP_OBJ_NULL]; [mp_obj_new_bytes] builds a bytes object. *)
Inductive mp_obj_t :=
| MP_OBJ_NULL
| mp_const_none
| mp_obj_bytes (data : list byte).

(** The C test [obj ? .. : ..] on a handle. *)
Definition mp_obj_nonnull (o : mp_obj_t) : bool :=
  match o with MP_OBJ_NULL => false | _ => true end.

Inductive mp_exception :=
| ValueError (msg : string)
| RuntimeError (msg : string) (varg : option Z)
| OSError (errno : Z)
| MemoryError.                  (* raised by the runtime's allocator *)

Definition ENOMEM : Z := 12.
Definition ESP_OK : Z := 0.

(** ** Driver configuration records *)

Record audio_codec_adc_cfg_t := {
  cfg_max_store_buf_size : Z;
  cfg_conv_frame_size : Z;
  cfg_unit_id : Z;
  cfg_adc_channel_list : list (option Z);   (* uint8_t channels[10]; None = never written *)
  cfg_adc_channel_num : Z;
  cfg_sample_rate_hz : Z;
  cfg_atten : Z
}.

Record esp_codec_dev_sample_info_t := {
  fs_sample_rate : Z;
  fs_channel : Z;
  fs_bits_per_sample : Z
}.

(** ** Events: every call that leaves the function *)

Inductive event :=
| Ev_audio_codec_new_adc_data (cfg : audio_codec_adc_cfg_t) (ok : bool)
| Ev_esp_codec_dev_new (ok : bool)
| Ev_esp_codec_dev_open (fs : esp_codec_dev_sample_info_t) (ret : Z)
| Ev_heap_caps_malloc (size : Z) (ok : bool)
| Ev_esp_task_wdt_reset
| Ev_esp_codec_dev_read (size : Z) (ret : Z)
| Ev_vTaskDelay_ms (ms : Z)
| Ev_mp_obj_new_bytes (len : Z)
| Ev_heap_caps_free
| Ev_esp_codec_dev_close
| Ev_esp_codec_dev_delete
| Ev_audio_codec_delete_data_if.

(** Memory as seen from [audio_buffer]: the byte at each offset. *)
Definition memory := nat -> byte.

(** What the collaborators answer during one call. *)
Record driver := {
  new_adc_data_ok : bool;            (* audio_codec_new_adc_data(..) != NULL *)
  dev_new_ok : bool;                 (* esp_codec_dev_new(..) != NULL *)
  dev_open_ret : Z;                  (* esp_codec_dev_open(..) *)
  malloc_ok : bool;                  (* heap_caps_malloc(..) != NULL *)
  dev_read : Z -> Z * memory;        (* per chunk: return value, memory afterwards *)
  new_bytes_ok : bool                (* mp_obj_new_bytes(..) finds room; else MemoryError *)
}.

(** ** A small monad: trace of events, exceptions, faults *)

Inductive res (A : Type) :=
| Ok (a : A)
| Raise (e : mp_exception)     (* mp_raise_*: non-local exit *)
| Fault.                       (* access outside an array: undefined behaviour *)
Arguments Ok {A} a.
Arguments Raise {A} e.
Arguments Fault {A}.

Definition M (A : Type) : Type := list event -> res A * list event.

#[global] Instance M_ret : MRet M := fun A a t => (Ok a, t).

#[global] Instance M_bind : MBind M := fun A B f m t =>
  match m t with
  | (Ok a, t') => f a t'
  | (Raise e, t') => (Raise e, t')
  | (Fault, t') => (Fault, t')
  end.

(** A call to a collaborator: append it to the trace. *)
Definition call (ev : event) : M unit := fun t => (Ok tt, t ++ [ev]).
Definition mp_raise {A} (e : mp_exception) : M A := fun t => (Raise e, t).
Definition fault {A} : M A := fun t => (Fault, t).

(** [if (c) { body-that-raises }]: nothing happens when [c] is false. *)
Definition when (c : bool) (m : M unit) : M unit := if c then m else mret tt.

(** ** The narrowing loop (lines 46-49)

    [uint8_t channels[10]; for (size_t i = 0; i < adc_channel_num; i++)
       channels[i] = (uint8_t)mp_obj_get_int(channel_list_items[i]);]
    Both accesses are checked: leaving either array is a [Fault]. *)

Definition CHANNELS_LEN : nat := 10.

Definition channels_init : list (option Z) := replicate CHANNELS_LEN None.

Fixpoint narrow_loop (n : nat) (i : nat) (items : list Z)
    (channels : list (option Z)) : option (list (option Z)) :=
  match n with
  | O => Some channels
  | S k =>
      match items !! i with
      | None => None
      | Some item =>
          if decide (i < length channels)%nat
          then narrow_loop k (S i) items (<[i := Some (to_uint8_t item)]> channels)
          else None
      end
  end.

(** The loop bound is [adc_channel_num] converted to [size_t]. *)
Definition narrow_channels (a : args) : option (list (option Z)) :=
  narrow_loop (Z.to_nat (to_size_t (arg_adc_channel_num a))) 0
              (arg_channel_list a) channels_init.

(** ** The sample buffer *)

(** One [int16_t], low byte first. *)
Definition int16_of_bytes (lo hi : byte) : Z :=
  let u := Z.of_N (Byte.to_N lo) + 256 * Z.of_N (Byte.to_N hi) in
  if u <? 32768 then u else u - 65536.

(** [audio_buffer[i]]: the sample at byte offset [2 * i].  C does not check
    the index: past the allocation the load sees whatever the heap holds
    there, which is what [memory] provides. *)
Definition audio_buffer (mem : memory) (i : nat) : Z :=
  int16_of_bytes (mem (2 * i)%nat) (mem (2 * i + 1)%nat).

(** [mp_obj_new_bytes((const byte * )audio_buffer, len)]: a copy of the
    first [len] bytes. *)
Definition mp_obj_new_bytes (mem : memory) (len : Z) : mp_obj_t :=
  mp_obj_bytes (map mem (seq 0 (Z.to_nat len))).

(** [const size_t buf_size = chunk_samples * sizeof(int16_t) * adc_channel_num;] *)
Definition buf_size (a : args) : Z :=
  size_mul (size_mul (chunk_samples a) 2) (to_size_t (arg_adc_channel_num a)).

(** ** The min/max loop (lines 130-134)

    [for (size_t i = 0; i < chunk_samples; i++) {
       int16_t s = audio_buffer[i];
       if (s < global_min) global_min = s;
       if (s > global_max) global_max = s; }] *)

Fixpoint min_max_loop (n : nat) (i : nat) (mem : memory) (gmin gmax : Z) : Z * Z :=
  match n with
  | O => (gmin, gmax)
  | S k =>
      let s := audio_buffer mem i in
      let gmin := if s <? gmin then s else gmin in
      let gmax := if s >? gmax then s else gmax in
      min_max_loop k (S i) mem gmin gmax
  end.

(** ** The acquisition loop (lines 112-151) *)

Record locals := {
  global_min : Z;
  global_max : Z;
  last_buf_obj : mp_obj_t
}.

(** [int16_t global_min = 32767; int16_t global_max = -32768;
     mp_obj_t last_buf_obj = mp_const_none;] *)
Definition locals_init : locals :=
  {| global_min := 32767; global_max := -32768; last_buf_obj := mp_const_none |}.

(** [const int N = 1; const int chunks_to_print = 0;]  With
    [chunks_to_print = 0] the debug branch at lines 137-145 is never taken
    (and only prints); it has no counterpart below. *)
Definition N : Z := 1.

Section Acquisition.

Variable d : driver.
Variable n_chunks : Z.          (* N *)
Variable n_samples : Z.         (* chunk_samples *)
Variable size : Z.              (* buf_size *)

(** [for (int chunk = 0; chunk < N; chunk++) { .. }], with [remaining]
    counting the iterations left.  [esp_codec_dev_read] takes its length
    as an [int], so it receives [buf_size] converted.  [mp_obj_new_bytes]
    raises [MemoryError] when the runtime heap has no room: a non-local
    exit from inside the loop, past everything that follows it. *)
Fixpoint acquisition_loop (remaining : nat) (chunk : Z) (st : locals) : M locals :=
  match remaining with
  | O => mret st
  | S k =>
      call Ev_esp_task_wdt_reset;;
      let '(r, mem) := dev_read d chunk in
      call (Ev_esp_codec_dev_read (to_int size) r);;
      if r <? 0 then mret st                                  (* break *)
      else
        call (Ev_vTaskDelay_ms 1);;
        let '(gmin, gmax) :=
          min_max_loop (Z.to_nat n_samples) 0 mem (global_min st) (global_max st) in
        let st := {| global_min := gmin; global_max := gmax;
                     last_buf_obj := last_buf_obj st |} in
        st ← (if chunk =? n_chunks - 1
              then call (Ev_mp_obj_new_bytes size);;
                   when (negb (new_bytes_ok d)) (mp_raise MemoryError);;
                   mret {| global_min := gmin; global_max := gmax;
                           last_buf_obj := mp_obj_new_bytes mem size |}
              else mret st);
        acquisition_loop k (chunk + 1) st
  end.

End Acquisition.

(** ** [adc_mic_read] (lines 15-170) *)

Definition make_cfg (a : args) (channels : list (option Z)) : audio_codec_adc_cfg_t :=
  {| cfg_max_store_buf_size := 1024 * 2;
     cfg_conv_frame_size := 1024;
     cfg_unit_id := arg_unit_id a;
     cfg_adc_channel_list := channels;
     cfg_adc_channel_num := arg_adc_channel_num a;
     cfg_sample_rate_hz := arg_sample_rate_hz a;
     cfg_atten := arg_atten a |}.

Definition make_fs (a : args) : esp_codec_dev_sample_info_t :=
  {| fs_sample_rate := arg_sample_rate_hz a;
     fs_channel := arg_adc_channel_num a;
     fs_bits_per_sample := 16 |}.

(** The body up to and including the cleanup at lines 162-165; it yields the
    locals the last statement and the report at lines 156-159 read. *)
Definition adc_mic_read_body (d : driver) (a : args) : M locals :=
  let adc_channel_num := arg_adc_channel_num a in
  when (adc_channel_num >? 10)
    (mp_raise (ValueError "Too many channels (max 10)"));;
  when (channel_list_len a <? to_size_t adc_channel_num)
    (mp_raise (ValueError "adc_channel_list shorter than adc_channel_num"));;
  channels ← match narrow_channels a with
              | Some channels => mret channels
              | None => fault
              end;
  call (Ev_audio_codec_new_adc_data (make_cfg a channels) (new_adc_data_ok d));;
  when (negb (new_adc_data_ok d))
    (mp_raise (RuntimeError "Failed to init ADC interface" None));;
  call (Ev_esp_codec_dev_new (dev_new_ok d));;
  when (negb (dev_new_ok d))
    (call Ev_audio_codec_delete_data_if;;
     mp_raise (RuntimeError "Failed to create codec dev" None));;
  call (Ev_esp_codec_dev_open (make_fs a) (dev_open_ret d));;
  when (negb (dev_open_ret d =? ESP_OK))
    (call Ev_esp_codec_dev_delete;;
     call Ev_audio_codec_delete_data_if;;
     mp_raise (RuntimeError "esp_codec_dev_open failed: %d" (Some (dev_open_ret d))));;
  call (Ev_heap_caps_malloc (buf_size a) (malloc_ok d));;
  when (negb (malloc_ok d))
    (call Ev_esp_codec_dev_close;;
     call Ev_esp_codec_dev_delete;;
     call Ev_audio_codec_delete_data_if;;
     mp_raise (OSError ENOMEM));;
  st ← acquisition_loop d N (chunk_samples a) (buf_size a) (Z.to_nat N) 0 locals_init;
  call Ev_heap_caps_free;;
  call Ev_esp_codec_dev_close;;
  call Ev_esp_codec_dev_delete;;
  call Ev_audio_codec_delete_data_if;;
  mret st.

(** [return last_buf_obj ? last_buf_obj : mp_obj_new_bytes(NULL, 0);] *)
Definition adc_mic_read (d : driver) (a : args) : M mp_obj_t :=
  st ← adc_mic_read_body d a;
  if mp_obj_nonnull (last_buf_obj st) then mret (last_buf_obj st)
  else call (Ev_mp_obj_new_bytes 0);;
       when (negb (new_bytes_ok d)) (mp_raise MemoryError);;
       mret (mp_obj_bytes []).

(** Running a call from an empty trace. *)
Definition run {A} (m : M A) : res A * list event := m [].

Definition outcome (d : driver) (a : args) : res mp_obj_t := fst (run (adc_mic_read d a)).
Definition trace (d : driver) (a : args) : list event := snd (run (adc_mic_read d a)).
Definition final_locals (d : driver) (a : args) : res locals := fst (run (adc_mic_read_body d a)).

(** ** Concrete collaborators, for examples *)

(** Memory holding the bytes [l] from offset 0 and zeroes after them. *)
Definition mem_of_list (l : list byte) : memory := fun k => nth k l x00.

(** A driver for which every set-up step succeeds and every read returns
    [r], leaving [l] in memory, with a runtime heap that has room. *)
Definition driver_ok (r : Z) (l : list byte) : driver :=
  {| new_adc_data_ok := true; dev_new_ok := true; dev_open_ret := ESP_OK;
     malloc_ok := true; dev_read := fun _ => (r, mem_of_list l);
     new_bytes_ok := true |}.

(** The same with a runtime heap that has no room for the snapshot. *)
Definition driver_heap_full (r : Z) (l : list byte) : driver :=
  {| new_adc_data_ok := true; dev_new_ok := true; dev_open_ret := ESP_OK;
     malloc_ok := true; dev_read := fun _ => (r, mem_of_list l);
     new_bytes_ok := false |}.

(** ** Vocabulary for the properties *)

(** The two checks at lines 39-44, as the C comparison evaluates them:
    [adc_channel_num > 10] on [int]s, [channel_list_len < adc_channel_num]
    after converting the [int] to [size_t]. *)
Definition validation_ok (a : args) : bool :=
  negb (arg_adc_channel_num a >? 10) &&
  negb (channel_list_len a <? to_size_t (arg_adc_channel_num a)).

(** Data interface created, device created, device opened, buffer allocated. *)
Definition setup_ok (d : driver) : bool :=
  new_adc_data_ok d && dev_new_ok d && (dev_open_ret d =? ESP_OK) && malloc_ok d.

Definition is_ValueError {A} (r : res A) : bool :=
  match r with Raise (ValueError _) => true | _ => false end.

(** The trace of a call whose set-up went through, up to the allocation. *)
Definition setup_events (d : driver) (a : args) (channels : list (option Z)) : list event :=
  [Ev_audio_codec_new_adc_data (make_cfg a channels) true;
   Ev_esp_codec_dev_new true;
   Ev_esp_codec_dev_open (make_fs a) (dev_open_ret d);
   Ev_heap_caps_malloc (buf_size a) (malloc_ok d)].

(** The cleanup at lines 162-165. *)
Definition teardown_events : list event :=
  [Ev_heap_caps_free; Ev_esp_codec_dev_close; Ev_esp_codec_dev_delete;
   Ev_audio_codec_delete_data_if].

(** The ten ways through the body: which conditions select each, what it
    yields and what it has called by then. *)
Inductive body_path (d : driver) (a : args) : res locals * list event -> Prop :=
| path_too_many :
    (arg_adc_channel_num a >? 10) = true ->
    body_path d a (Raise (ValueError "Too many channels (max 10)"), [])
| path_too_short :
    (arg_adc_channel_num a >? 10) = false ->
    (channel_list_len a <? to_size_t (arg_adc_channel_num a)) = true ->
    body_path d a
      (Raise (ValueError "adc_channel_list shorter than adc_channel_num"), [])
| path_fault :
    validation_ok a = true ->
    narrow_channels a = None ->
    body_path d a (Fault, [])
| path_no_data_if channels :
    validation_ok a = true ->
    narrow_channels a = Some channels ->
    new_adc_data_ok d = false ->
    body_path d a
      (Raise (RuntimeError "Failed to init ADC interface" None),
       [Ev_audio_codec_new_adc_data (make_cfg a channels) false])
| path_no_dev channels :
    validation_ok a = true ->
    narrow_channels a = Some channels ->
    new_adc_data_ok d = true ->
    dev_new_ok d = false ->
    body_path d a
      (Raise (RuntimeError "Failed to create codec dev" None),
       [Ev_audio_codec_new_adc_data (make_cfg a channels) true;
        Ev_esp_codec_dev_new false;
        Ev_audio_codec_delete_data_if])
| path_open_failed channels :
    validation_ok a = true ->
    narrow_channels a = Some channels ->
    new_adc_data_ok d = true ->
    dev_new_ok d = true ->
    dev_open_ret d <> ESP_OK ->
    body_path d a
      (Raise (RuntimeError "esp_codec_dev_open failed: %d" (Some (dev_open_ret d))),
       [Ev_audio_codec_new_adc_data (make_cfg a channels) true;
        Ev_esp_codec_dev_new true;
        Ev_esp_codec_dev_open (make_fs a) (dev_open_ret d);
        Ev_esp_codec_dev_delete;
        Ev_audio_codec_delete_data_if])
| path_no_mem channels :
    validation_ok a = true ->
    narrow_channels a = Some channels ->
    new_adc_data_ok d = true ->
    dev_new_ok d = true ->
    dev_open_ret d = ESP_OK ->
    malloc_ok d = false ->
    body_path d a
      (Raise (OSError ENOMEM),
       setup_events d a channels ++
       [Ev_esp_codec_dev_close; Ev_esp_codec_dev_delete;
        Ev_audio_codec_delete_data_if])
| path_read_failed channels :
    validation_ok a = true ->
    narrow_channels a = Some channels ->
    setup_ok d = true ->
    fst (dev_read d 0) < 0 ->
    body_path d a
      (Ok locals_init,
       setup_events d a channels ++
       [Ev_esp_task_wdt_reset;
        Ev_esp_codec_dev_read (to_int (buf_size a)) (fst (dev_read d 0))] ++
       teardown_events)
| path_snapshot_failed channels :
    validation_ok a = true ->
    narrow_channels a = Some channels ->
    setup_ok d = true ->
    0 <= fst (dev_read d 0) ->
    new_bytes_ok d = false ->
    body_path d a
      (Raise MemoryError,
       setup_events d a channels ++
       [Ev_esp_task_wdt_reset;
        Ev_esp_codec_dev_read (to_int (buf_size a)) (fst (dev_read d 0));
        Ev_vTaskDelay_ms 1;
        Ev_mp_obj_new_bytes (buf_size a)])
| path_read_ok channels :
    validation_ok a = true ->
    narrow_channels a = Some channels ->
    setup_ok d = true ->
    0 <= fst (dev_read d 0) ->
    new_bytes_ok d = true ->
    body_path d a
      (Ok {| global_min :=
               fst (min_max_loop (Z.to_nat (chunk_samples a)) 0
                      (snd (dev_read d 0)) 32767 (-32768));
             global_max :=
               snd (min_max_loop (Z.to_nat (chunk_samples a)) 0
                      (snd (dev_read d 0)) 32767 (-32768));
             last_buf_obj := mp_obj_new_bytes (snd (dev_read d 0)) (buf_size a) |},
       setup_events d a channels ++
       [Ev_esp_task_wdt_reset;
        Ev_esp_codec_dev_read (to_int (buf_size a)) (fst (dev_read d 0));
        Ev_vTaskDelay_ms 1;
        Ev_mp_obj_new_bytes (buf_size a)] ++
       teardown_events).

(** *** Resources and their release *)

Inductive resource := R_data_if | R_device | R_open | R_buffer.

(** The resource a call hands out, when it succeeds. *)
Definition acquires (ev : event) : option resource :=
  match ev with
  | Ev_audio_codec_new_adc_data _ true => Some R_data_if
  | Ev_esp_codec_dev_new true => Some R_device
  | Ev_esp_codec_dev_open _ r => if r =? ESP_OK then Some R_open else None
  | Ev_heap_caps_malloc _ true => Some R_buffer
  | _ => None
  end.

(** The resource a call gives back. *)
Definition releases (ev : event) : option resource :=
  match ev with
  | Ev_heap_caps_free => Some R_buffer
  | Ev_esp_codec_dev_close => Some R_open
  | Ev_esp_codec_dev_delete => Some R_device
  | Ev_audio_codec_delete_data_if => Some R_data_if
  | _ => None
  end.

#[global] Instance resource_eq_dec : EqDecision resource.
Proof. solve_decision. Defined.

Definition acquired (t : list event) : list resource := omap acquires t.
Definition released (t : list event) : list resource := omap releases t.

(** Allocator and driver calls, as opposed to watchdog, scheduler and
    runtime calls. *)
Definition is_alloc_or_driver (ev : event) : bool :=
  match ev with
  | Ev_esp_task_wdt_reset | Ev_vTaskDelay_ms _ | Ev_mp_obj_new_bytes _ => false
  | _ => true
  end.

(** *** Watchdog before read *)

Definition is_read (ev : event) : bool :=
  match ev with Ev_esp_codec_dev_read _ _ => true | _ => false end.

Definition is_wdt_reset (ev : event) : bool :=
  match ev with Ev_esp_task_wdt_reset => true | _ => false end.

(** Every read in [t] comes right after a watchdog reset. *)
Definition reads_guarded (t : list event) : Prop :=
  forall pre ev post,
    t = pre ++ ev :: post -> is_read ev = true ->
    exists pre', pre = pre' ++ [Ev_esp_task_wdt_reset].

(** The same as a scan over the trace; [prev] tells whether the event just
    before the head is a watchdog reset. *)
Fixpoint guarded_from (prev : bool) (t : list event) : bool :=
  match t with
  | [] => true
  | ev :: t' => (if is_read ev then prev else true) && guarded_from (is_wdt_reset ev) t'
  end.

(** Whether the last event of [t] is a watchdog reset ([prev] when [t] is
    empty). *)
Fixpoint ends_with_wdt (prev : bool) (t : list event) : bool :=
  match t with
  | [] => prev
  | ev :: t' => ends_with_wdt (is_wdt_reset ev) t'
  end.

(** *** Min/max as a reduction *)

(** The first [count] samples of the buffer. *)
Definition buffer_samples (mem : memory) (count : nat) : list Z :=
  map (audio_buffer mem) (seq 0 count).

(** The running reduction of the specification: [min] and [max] with every
    sample in turn. *)
Definition spec_min_max (samples : list Z) (gmin gmax : Z) : Z * Z :=
  fold_left (fun acc s => (Z.min (fst acc) s, Z.max (snd acc) s)) samples (gmin, gmax).

(** The [i]-th 16-bit sample held in a byte sequence, if it is all there. *)
Definition sample_of_bytes (bs : list byte) (i : nat) : option Z :=
  match bs !! (2 * i)%nat, bs !! (2 * i + 1)%nat with
  | Some lo, Some hi => Some (int16_of_bytes lo hi)
  | _, _ => None
  end.

(** One sample per channel on two channels: the buffer holds the samples
    0 and 5. *)
Definition stereo_args : args := Args 1 0 [0; 1] 2 16000 0.
Definition stereo_driver : driver := driver_ok 0 [x00; x00; x05; x00].

(** 10240 samples on one channel, 20480 bytes. *)
Definition mono_args : args := Args 10240 0 [0] 1 16000 0.

(** 2^30 samples per channel on three channels: the byte count 6 * 2^30
    does not fit a 32-bit [size_t]. *)
Definition huge_args : args := Args 1073741824 0 [0; 1; 2] 3 16000 0.

(** ** Vocabulary for further properties *)

(** The driver [d] with the memory left by every read replaced by [m]. *)
Definition with_memory (d : driver) (m : memory) : driver :=
  {| new_adc_data_ok := new_adc_data_ok d;
     dev_new_ok := dev_new_ok d;
     dev_open_ret := dev_open_ret d;
     malloc_ok := malloc_ok d;
     dev_read := fun chunk => (fst (dev_read d chunk), m);
     new_bytes_ok := new_bytes_ok d |}.

(** Two memories with the same first [n] bytes. *)
Definition mem_agree (n : nat) (m1 m2 : memory) : Prop :=
  forall k : nat, (k < n)%nat -> m1 k = m2 k.


(** The byte count a call passes, for the calls that take one. *)
Definition event_size (ev : event) : option Z :=
  match ev with
  | Ev_heap_caps_malloc size _ => Some size
  | Ev_esp_codec_dev_read size _ => Some size
  | Ev_mp_obj_new_bytes len => Some len
  | _ => None
  end.

Definition is_snapshot (ev : event) : bool :=
  match ev with Ev_mp_obj_new_bytes _ => true | _ => false end.

Definition is_yield (ev : event) : bool :=
  match ev with Ev_vTaskDelay_ms _ => true | _ => false end.

Definition is_failed_read (ev : event) : bool :=
  match ev with Ev_esp_codec_dev_read _ r => r <? 0 | _ => false end.

Definition is_good_read (ev : event) : bool :=
  match ev with Ev_esp_codec_dev_read _ r => negb (r <? 0) | _ => false end.

(** Calls that touch the sample buffer: the read fills it, the snapshot
    copies it. *)
Definition uses_buffer (ev : event) : bool := is_read ev || is_snapshot ev.

(** How many events of a trace satisfy [p]. *)
Fixpoint count_events (p : event -> bool) (t : list event) : nat :=
  match t with
  | [] => O
  | ev :: t' => ((if p ev then 1 else 0) + count_events p t')%nat
  end.

(** The range of [int16_t]. *)
Definition in_int16 (x : Z) : Prop := -32768 <= x <= 32767.

(** The outcome of a call as a decision list: the first step that fails
    decides, in the order validation, data interface, device, open,
    allocation, and after a successful read the snapshot; a failed read
    does not raise. *)
Definition outcome_by_first_failure (d : driver) (a : args) : res mp_obj_t :=
  if arg_adc_channel_num a >? 10
  then Raise (ValueError "Too many channels (max 10)")
  else if channel_list_len a <? to_size_t (arg_adc_channel_num a)
  then Raise (ValueError "adc_channel_list shorter than adc_channel_num")
  else if negb (new_adc_data_ok d)
  then Raise (RuntimeError "Failed to init ADC interface" None)
  else if negb (dev_new_ok d)
  then Raise (RuntimeError "Failed to create codec dev" None)
  else if negb (dev_open_ret d =? ESP_OK)
  then Raise (RuntimeError "esp_codec_dev_open failed: %d" (Some (dev_open_ret d)))
  else if negb (malloc_ok d)
  then Raise (OSError ENOMEM)
  else if fst (dev_read d 0) <? 0
  then Ok mp_const_none
  else if negb (new_bytes_ok d)
  then Raise MemoryError
  else Ok (mp_obj_new_bytes (snd (dev_read d 0)) (buf_size a)).

(** * Properties *)

(** ** Machine integers *)

Lemma to_size_t_range x : 0 <= to_size_t x < SIZE_MOD.
Proof. unfold to_size_t, SIZE_MOD. apply Z.mod_pos_bound. lia. Qed.

Lemma to_size_t_small x : 0 <= x < SIZE_MOD -> to_size_t x = x.
Proof. intros H. unfold to_size_t. apply Z.mod_small. exact H. Qed.

Lemma to_size_t_neg x : INT_MIN <= x < 0 -> to_size_t x = x + SIZE_MOD.
Proof.
  unfold to_size_t, SIZE_MOD, INT_MIN. intros H.
  rewrite <- (Z.mod_add x 1 (2 ^ 32)) by lia.
  rewrite Z.mod_small; lia.
Qed.

Lemma in_int_range x : in_int x = true -> INT_MIN <= x <= INT_MAX.
Proof. unfold in_int. intros H. apply andb_prop in H as [H1 H2]. lia. Qed.

(** [buf_size] is the product reduced modulo 2^32. *)
Lemma buf_size_mod a :
  0 <= arg_adc_channel_num a < SIZE_MOD ->
  buf_size a = (chunk_samples a * arg_adc_channel_num a * 2) mod SIZE_MOD.
Proof.
  intros Hc. unfold buf_size, size_mul.
  rewrite (to_size_t_small (arg_adc_channel_num a)) by exact Hc.
  unfold SIZE_MOD. rewrite Z.mul_mod_idemp_l by lia.
  f_equal. lia.
Qed.

Lemma buf_size_range a : 0 <= buf_size a < SIZE_MOD.
Proof. unfold buf_size, size_mul, SIZE_MOD. apply Z.mod_pos_bound. lia. Qed.

(** ** Validation *)

Lemma wf_args_channel_num a : wf_args a = true -> INT_MIN <= arg_adc_channel_num a <= INT_MAX.
Proof.
  unfold wf_args. intros H.
  repeat (apply andb_prop in H as [H ?]).
  apply in_int_range. assumption.
Qed.

Lemma wf_args_len a : wf_args a = true -> 0 <= channel_list_len a < 2 ^ 30.
Proof.
  unfold wf_args. intros H. apply andb_prop in H as [_ H].
  unfold channel_list_len in *. lia.
Qed.

(** Once both checks pass, the channel count is between 0 and 10 and does
    not exceed the length of the list. *)
Lemma validation_ok_bounds a :
  wf_args a = true -> validation_ok a = true ->
  0 <= arg_adc_channel_num a <= 10 /\ arg_adc_channel_num a <= channel_list_len a.
Proof.
  intros Hwf Hv.
  pose proof (wf_args_channel_num a Hwf) as Hc.
  pose proof (wf_args_len a Hwf) as Hl.
  unfold validation_ok in Hv. apply andb_prop in Hv as [H1 H2].
  apply negb_true_iff in H1, H2.
  assert (arg_adc_channel_num a <= 10) as Hle by lia.
  destruct (Z_lt_le_dec (arg_adc_channel_num a) 0) as [Hneg | Hpos].
  - rewrite to_size_t_neg in H2 by (unfold INT_MIN in *; lia).
    unfold SIZE_MOD, INT_MIN in *. lia.
  - rewrite to_size_t_small in H2 by (unfold SIZE_MOD; lia). lia.
Qed.

(** ** The narrowing loop *)

Lemma narrow_loop_length n : forall i items channels channels',
  narrow_loop n i items channels = Some channels' ->
  length channels' = length channels.
Proof.
  induction n as [| n IH]; intros i items channels channels' H; simpl in H.
  - congruence.
  - destruct (items !! i) as [item |]; [| discriminate].
    case_decide; [| discriminate].
    apply IH in H. rewrite length_insert in H. exact H.
Qed.

(** The loop completes exactly when every index it visits lies inside both
    arrays. *)
Lemma narrow_loop_in_bounds n : forall i items channels,
  (i + n <= length items)%nat -> (i + n <= length channels)%nat ->
  is_Some (narrow_loop n i items channels).
Proof.
  induction n as [| n IH]; intros i items channels Hi Hc; simpl.
  - eauto.
  - destruct (lookup_lt_is_Some_2 items i) as [item Hitem]; [lia |].
    rewrite Hitem. case_decide; [| lia].
    apply IH; [| rewrite length_insert]; lia.
Qed.

Lemma narrow_loop_out_of_bounds n : forall i items channels,
  (0 < n)%nat ->
  (length channels < i + n)%nat \/ (length items < i + n)%nat ->
  narrow_loop n i items channels = None.
Proof.
  induction n as [| n IH]; intros i items channels Hn H; simpl.
  - lia.
  - destruct (items !! i) as [item |] eqn:Hitem; [| reflexivity].
    apply lookup_lt_Some in Hitem.
    case_decide; [| reflexivity].
    apply IH; [| rewrite length_insert]; lia.
Qed.

(** What the loop leaves in the array: the narrowed items at the indices it
    visited, the old contents elsewhere. *)
Lemma narrow_loop_lookup n : forall i items channels channels' j,
  narrow_loop n i items channels = Some channels' ->
  channels' !! j =
    if decide (i <= j < i + n)%nat
    then (fun item => Some (to_uint8_t item)) <$> items !! j
    else channels !! j.
Proof.
  induction n as [| n IH]; intros i items channels channels' j H; simpl in H.
  - injection H as <-. case_decide; [lia | reflexivity].
  - destruct (items !! i) as [item |] eqn:Hitem; [| discriminate].
    case_decide as Hlt; [| discriminate].
    rewrite (IH _ _ _ _ j H).
    destruct (decide (j = i)) as [-> | Hne].
    + repeat case_decide; try lia.
      rewrite list_lookup_insert_eq by exact Hlt. rewrite Hitem. reflexivity.
    + rewrite list_lookup_insert_ne by congruence.
      repeat case_decide; try lia; reflexivity.
Qed.

(** Validated arguments never fault in the narrowing loop. *)
Lemma narrow_channels_validated a :
  wf_args a = true -> validation_ok a = true ->
  exists channels, narrow_channels a = Some channels.
Proof.
  intros Hwf Hv.
  destruct (validation_ok_bounds a Hwf Hv) as [Hc Hl].
  apply narrow_loop_in_bounds.
  - rewrite to_size_t_small by (unfold SIZE_MOD; lia).
    unfold channel_list_len in Hl. lia.
  - rewrite to_size_t_small by (unfold SIZE_MOD; lia).
    unfold channels_init. rewrite length_replicate. unfold CHANNELS_LEN. lia.
Qed.

(** ** The paths through [adc_mic_read] *)

Ltac unfold_monad :=
  unfold when, mbind, M_bind, mret, M_ret, call, mp_raise, fault.

(** One turn of the loop whose read fails: watchdog, read, break. *)
Lemma acquisition_loop_abort d n_chunks n_samples size k chunk st t :
  fst (dev_read d chunk) < 0 ->
  acquisition_loop d n_chunks n_samples size (S k) chunk st t =
    (Ok st, t ++ [Ev_esp_task_wdt_reset;
                  Ev_esp_codec_dev_read (to_int size) (fst (dev_read d chunk))]).
Proof.
  intros Hr. cbn [acquisition_loop]. unfold_monad.
  destruct (dev_read d chunk) as [r mem]. cbn [fst] in *.
  apply Z.ltb_lt in Hr. rewrite Hr.
  rewrite <- app_assoc. reflexivity.
Qed.

(** One turn of the loop whose read succeeds: watchdog, read, yield,
    min/max over the first [n_samples] samples, snapshot on the last turn,
    and on to the next turn.  On the last turn this needs the runtime heap
    to have room. *)
Lemma acquisition_loop_step d n_chunks n_samples size k chunk st t :
  0 <= fst (dev_read d chunk) ->
  chunk <> n_chunks - 1 \/ new_bytes_ok d = true ->
  let mem := snd (dev_read d chunk) in
  let mm := min_max_loop (Z.to_nat n_samples) 0 mem (global_min st) (global_max st) in
  acquisition_loop d n_chunks n_samples size (S k) chunk st t =
    acquisition_loop d n_chunks n_samples size k (chunk + 1)
      {| global_min := fst mm; global_max := snd mm;
         last_buf_obj := if chunk =? n_chunks - 1
                         then mp_obj_new_bytes mem size
                         else last_buf_obj st |}
      (t ++ [Ev_esp_task_wdt_reset;
             Ev_esp_codec_dev_read (to_int size) (fst (dev_read d chunk));
             Ev_vTaskDelay_ms 1] ++
            (if chunk =? n_chunks - 1 then [Ev_mp_obj_new_bytes size] else [])).
Proof.
  intros Hr Hroom mem mm. subst mem mm. cbn [acquisition_loop]. unfold_monad.
  destruct (dev_read d chunk) as [r mem]. cbn [fst snd] in *.
  apply Z.ltb_ge in Hr. rewrite Hr.
  destruct (min_max_loop _ _ _ _ _) as [gmin gmax]. cbn [fst snd].
  destruct (Z.eqb_spec chunk (n_chunks - 1)) as [Hlast | Hnot].
  - destruct Hroom as [Hne | ->]; [contradiction |]. cbn [negb].
    repeat rewrite <- app_assoc. reflexivity.
  - repeat rewrite <- app_assoc; cbn [app]. reflexivity.
Qed.

(** The last turn of the loop when the runtime heap has no room for the
    snapshot: watchdog, read, yield, the snapshot attempt, and
    [MemoryError] out of the loop. *)
Lemma acquisition_loop_snapshot_fails d n_chunks n_samples size k chunk st t :
  0 <= fst (dev_read d chunk) ->
  chunk = n_chunks - 1 -> new_bytes_ok d = false ->
  acquisition_loop d n_chunks n_samples size (S k) chunk st t =
    (Raise MemoryError,
     t ++ [Ev_esp_task_wdt_reset;
           Ev_esp_codec_dev_read (to_int size) (fst (dev_read d chunk));
           Ev_vTaskDelay_ms 1;
           Ev_mp_obj_new_bytes size]).
Proof.
  intros Hr Hlast Hroom. cbn [acquisition_loop]. unfold_monad.
  destruct (dev_read d chunk) as [r mem]. cbn [fst snd] in *.
  apply Z.ltb_ge in Hr. rewrite Hr.
  destruct (min_max_loop _ _ _ _ _) as [gmin gmax].
  rewrite Hlast, Z.eqb_refl, Hroom. cbn [negb].
  repeat rewrite <- app_assoc. reflexivity.
Qed.

(** The ways one turn of the loop can go: the read fails; it succeeds on
    the last turn with room for the snapshot; it succeeds on the last turn
    without; it succeeds on an earlier turn. *)
Ltac loop_turn d chunk n_chunks Hr Hlast Hroom :=
  destruct (Z_lt_le_dec (fst (dev_read d chunk)) 0) as [Hr | Hr];
  [ rewrite acquisition_loop_abort by exact Hr
  | destruct (Z.eq_dec chunk (n_chunks - 1)) as [Hlast | Hlast];
    [ destruct (new_bytes_ok d) eqn:Hroom;
      [ rewrite acquisition_loop_step by auto
      | rewrite acquisition_loop_snapshot_fails by auto ]
    | rewrite acquisition_loop_step by auto ] ].

Lemma setup_ok_inv d :
  setup_ok d = true ->
  new_adc_data_ok d = true /\ dev_new_ok d = true /\
  dev_open_ret d = ESP_OK /\ malloc_ok d = true.
Proof.
  unfold setup_ok. intros H.
  repeat (apply andb_prop in H as [H ?]).
  repeat split; try assumption. lia.
Qed.

(** Every call follows one of the ten paths. *)
Lemma adc_mic_read_body_path d a : body_path d a (run (adc_mic_read_body d a)).
Proof.
  unfold run, adc_mic_read_body. unfold_monad. cbv zeta.
  destruct (arg_adc_channel_num a >? 10) eqn:H10.
  { apply path_too_many. exact H10. }
  destruct (channel_list_len a <? to_size_t (arg_adc_channel_num a)) eqn:Hlen.
  { apply path_too_short; assumption. }
  assert (validation_ok a = true) as Hv.
  { unfold validation_ok. rewrite H10, Hlen. reflexivity. }
  destruct (narrow_channels a) as [channels |] eqn:Hch.
  2: { apply path_fault; assumption. }
  destruct (new_adc_data_ok d) eqn:Hif; cbn [negb app].
  2: { eapply path_no_data_if; eassumption. }
  destruct (dev_new_ok d) eqn:Hdev; cbn [negb app].
  2: { eapply path_no_dev; eassumption. }
  destruct (dev_open_ret d =? ESP_OK) eqn:Hopen; cbn [negb app].
  2: { eapply path_open_failed; try eassumption. lia. }
  assert (dev_open_ret d = ESP_OK) as Hopen' by lia.
  destruct (malloc_ok d) eqn:Hmem; cbn [negb app].
  2: { pose proof (path_no_mem d a channels Hv Hch Hif Hdev Hopen' Hmem) as P.
       unfold setup_events in P. rewrite Hmem in P. exact P. }
  assert (setup_ok d = true) as Hs.
  { unfold setup_ok. rewrite Hif, Hdev, Hopen, Hmem. reflexivity. }
  change (Z.to_nat N) with 1%nat.
  destruct (Z_lt_le_dec (fst (dev_read d 0)) 0) as [Hr | Hr].
  - pose proof (path_read_failed d a channels Hv Hch Hs Hr) as P.
    unfold setup_events, teardown_events in P. rewrite Hmem in P.
    rewrite acquisition_loop_abort by exact Hr.
    cbn [app]. exact P.
  - destruct (new_bytes_ok d) eqn:Hroom.
    + pose proof (path_read_ok d a channels Hv Hch Hs Hr Hroom) as P.
      unfold setup_events, teardown_events in P. rewrite Hmem in P.
      rewrite acquisition_loop_step by (auto using Hr).
      cbn [acquisition_loop]. unfold N. cbn [Z.eqb Z.sub Z.add Z.opp Z.pos_sub].
      unfold_monad. cbn [app]. exact P.
    + pose proof (path_snapshot_failed d a channels Hv Hch Hs Hr Hroom) as P.
      unfold setup_events in P. rewrite Hmem in P.
      rewrite acquisition_loop_snapshot_fails by (auto using Hr).
      cbn [app]. exact P.
Qed.

(** Case analysis on the path a call takes; [E] records what the body
    evaluates to on that path. *)
Ltac body_cases d a E :=
  let P := fresh "P" in
  let r := fresh "r" in
  pose proof (adc_mic_read_body_path d a) as P;
  remember (run (adc_mic_read_body d a)) as r eqn:E;
  destruct P.

(** The return statement hands back [last_buf_obj] on every path that
    reaches it: the handle is [mp_const_none] or a bytes object there, never
    [MP_OBJ_NULL], so the alternative [mp_obj_new_bytes(NULL, 0)] is not
    evaluated. *)
Lemma run_adc_mic_read d a :
  run (adc_mic_read d a) =
    match run (adc_mic_read_body d a) with
    | (Ok st, t) => (Ok (last_buf_obj st), t)
    | (Raise e, t) => (Raise e, t)
    | (Fault, t) => (Fault, t)
    end.
Proof.
  unfold adc_mic_read, run at 1. unfold mbind at 1. unfold M_bind at 1.
  fold (run (adc_mic_read_body d a)).
  body_cases d a E; reflexivity.
Qed.

Lemma trace_body d a : trace d a = snd (run (adc_mic_read_body d a)).
Proof.
  unfold trace. rewrite run_adc_mic_read.
  destruct (run (adc_mic_read_body d a)) as [[st | e |] t]; reflexivity.
Qed.

Lemma outcome_body d a :
  outcome d a =
    match fst (run (adc_mic_read_body d a)) with
    | Ok st => Ok (last_buf_obj st)
    | Raise e => Raise e
    | Fault => Fault
    end.
Proof.
  unfold outcome. rewrite run_adc_mic_read.
  destruct (run (adc_mic_read_body d a)) as [[st | e |] t]; reflexivity.
Qed.

(** What a call does once validation and set-up went through and the read
    failed. *)
Lemma run_read_failed d a :
  wf_args a = true -> validation_ok a = true -> setup_ok d = true ->
  fst (dev_read d 0) < 0 ->
  exists channels,
    narrow_channels a = Some channels /\
    run (adc_mic_read_body d a) =
      (Ok locals_init,
       setup_events d a channels ++
       [Ev_esp_task_wdt_reset;
        Ev_esp_codec_dev_read (to_int (buf_size a)) (fst (dev_read d 0))] ++
       teardown_events).
Proof.
  intros Hwf Hv Hs Hr.
  destruct (narrow_channels_validated a Hwf Hv) as [channels Hch].
  destruct (setup_ok_inv d Hs) as (Hif & Hdev & Hopen & Hmem).
  exists channels. split; [exact Hch |].
  unfold validation_ok in Hv. apply andb_prop in Hv as [H1 H2].
  apply negb_true_iff in H1, H2.
  body_cases d a E; try congruence; try lia.
Qed.

(** What a call does once validation and set-up went through and the read
    succeeded. *)
Lemma run_read_ok d a :
  wf_args a = true -> validation_ok a = true -> setup_ok d = true ->
  0 <= fst (dev_read d 0) -> new_bytes_ok d = true ->
  exists channels,
    narrow_channels a = Some channels /\
    run (adc_mic_read_body d a) =
      (Ok {| global_min :=
               fst (min_max_loop (Z.to_nat (chunk_samples a)) 0
                      (snd (dev_read d 0)) 32767 (-32768));
             global_max :=
               snd (min_max_loop (Z.to_nat (chunk_samples a)) 0
                      (snd (dev_read d 0)) 32767 (-32768));
             last_buf_obj := mp_obj_new_bytes (snd (dev_read d 0)) (buf_size a) |},
       setup_events d a channels ++
       [Ev_esp_task_wdt_reset;
        Ev_esp_codec_dev_read (to_int (buf_size a)) (fst (dev_read d 0));
        Ev_vTaskDelay_ms 1;
        Ev_mp_obj_new_bytes (buf_size a)] ++
       teardown_events).
Proof.
  intros Hwf Hv Hs Hr Hroom.
  destruct (narrow_channels_validated a Hwf Hv) as [channels Hch].
  destruct (setup_ok_inv d Hs) as (Hif & Hdev & Hopen & Hmem).
  exists channels. split; [exact Hch |].
  unfold validation_ok in Hv. apply andb_prop in Hv as [H1 H2].
  apply negb_true_iff in H1, H2.
  body_cases d a E; try congruence; try lia.
Qed.

(** What a call does once validation and set-up went through, the read
    succeeded and the runtime heap has no room for the snapshot: it leaves
    by [MemoryError] right after the attempt, with nothing released. *)
Lemma run_snapshot_failed d a :
  wf_args a = true -> validation_ok a = true -> setup_ok d = true ->
  0 <= fst (dev_read d 0) -> new_bytes_ok d = false ->
  exists channels,
    narrow_channels a = Some channels /\
    run (adc_mic_read_body d a) =
      (Raise MemoryError,
       setup_events d a channels ++
       [Ev_esp_task_wdt_reset;
        Ev_esp_codec_dev_read (to_int (buf_size a)) (fst (dev_read d 0));
        Ev_vTaskDelay_ms 1;
        Ev_mp_obj_new_bytes (buf_size a)]).
Proof.
  intros Hwf Hv Hs Hr Hroom.
  destruct (narrow_channels_validated a Hwf Hv) as [channels Hch].
  destruct (setup_ok_inv d Hs) as (Hif & Hdev & Hopen & Hmem).
  exists channels. split; [exact Hch |].
  unfold validation_ok in Hv. apply andb_prop in Hv as [H1 H2].
  apply negb_true_iff in H1, H2.
  body_cases d a E; try congruence; try lia.
Qed.

Lemma validation_ok_iff a :
  validation_ok a = true <->
  arg_adc_channel_num a <= 10 /\
  to_size_t (arg_adc_channel_num a) <= channel_list_len a.
Proof.
  unfold validation_ok. rewrite andb_true_iff, !negb_true_iff. lia.
Qed.

(** The mathematical reading of the two conditions is enough to be
    rejected: a count above the length is positive, and a count between 1
    and 10 is its own [size_t] value. *)
Lemma validation_rejects a :
  arg_adc_channel_num a > 10 \/ channel_list_len a < arg_adc_channel_num a ->
  validation_ok a = false.
Proof.
  intros H. apply not_true_iff_false. rewrite validation_ok_iff. intros [H10 Hlen].
  destruct H as [H | H]; [lia |].
  assert (0 <= channel_list_len a) by (unfold channel_list_len; lia).
  rewrite to_size_t_small in Hlen by (unfold SIZE_MOD; lia). lia.
Qed.

(** A failed read leaves [last_buf_obj] at [mp_const_none], and that is
    what the call returns. *)
Lemma read_failure_outcome d a :
  wf_args a = true -> validation_ok a = true -> setup_ok d = true ->
  fst (dev_read d 0) < 0 ->
  outcome d a = Ok mp_const_none.
Proof.
  intros Hwf Hv Hs Hr.
  destruct (run_read_failed d a Hwf Hv Hs Hr) as (channels & _ & E).
  rewrite outcome_body, E. reflexivity.
Qed.

(** ** C1: a failed read *)

(** C1 (the code departs from the claim).  The claim: when the single read
    returns a negative value the call completes without raising and returns
    an empty byte sequence.  The code: for 256 samples on two channels with
    a read returning -1, the call completes without raising and releases
    everything, but what it returns is [None], not an empty bytes object;
    [last_buf_obj] starts as [mp_const_none], which the final test takes as
    present. *)
Theorem C1_read_failure_returns_None :
  run (adc_mic_read (driver_ok (-1) []) (Args 256 0 [0; 1] 2 16000 0)) =
    (Ok mp_const_none,
     [Ev_audio_codec_new_adc_data
        (make_cfg (Args 256 0 [0; 1] 2 16000 0)
           [Some 0; Some 1; None; None; None; None; None; None; None; None]) true;
      Ev_esp_codec_dev_new true;
      Ev_esp_codec_dev_open (make_fs (Args 256 0 [0; 1] 2 16000 0)) 0;
      Ev_heap_caps_malloc 1024 true;
      Ev_esp_task_wdt_reset;
      Ev_esp_codec_dev_read 1024 (-1);
      Ev_heap_caps_free; Ev_esp_codec_dev_close; Ev_esp_codec_dev_delete;
      Ev_audio_codec_delete_data_if]) /\
  outcome (driver_ok (-1) []) (Args 256 0 [0; 1] 2 16000 0) <> Ok (mp_obj_bytes []).
Proof. split; [vm_compute; reflexivity | vm_compute; discriminate]. Qed.

(** ** C5: rejection before any call *)

(** C5.  When [adc_channel_num] exceeds 10, or the channel list has fewer
    elements than [adc_channel_num], the call raises [ValueError] and its
    trace is empty: no allocator or driver operation (indeed no call at
    all) has been made. *)
Theorem C5_invalid_argument_before_any_call d a :
  arg_adc_channel_num a > 10 \/ channel_list_len a < arg_adc_channel_num a ->
  exists msg, run (adc_mic_read d a) = (Raise (ValueError msg), []).
Proof.
  intros H. apply validation_rejects in H.
  rewrite run_adc_mic_read.
  body_cases d a E; try congruence; eexists; reflexivity.
Qed.

Lemma C5_invalid_argument_witness :
  (exists msg, run (adc_mic_read (driver_ok 0 []) (Args 256 0 [0; 1] 11 16000 0)) =
                 (Raise (ValueError msg), [])) /\
  (exists msg, run (adc_mic_read (driver_ok 0 []) (Args 256 0 [0; 1] 3 16000 0)) =
                 (Raise (ValueError msg), [])).
Proof.
  split.
  - apply (C5_invalid_argument_before_any_call (driver_ok 0 []) (Args 256 0 [0; 1] 11 16000 0)).
    left. reflexivity.
  - apply (C5_invalid_argument_before_any_call (driver_ok 0 []) (Args 256 0 [0; 1] 3 16000 0)).
    right. reflexivity.
Defined.

(** ** C6: allocation failure *)

(** C6.  When the data interface and the device were created, the device
    was opened and [heap_caps_malloc] then returns null, the call raises
    [OSError(ENOMEM)]; by then it has closed the device, deleted it and
    deleted the data interface, in that order, and the trace holds no read. *)
Theorem C6_allocation_failure d a :
  wf_args a = true -> validation_ok a = true ->
  new_adc_data_ok d = true -> dev_new_ok d = true -> dev_open_ret d = ESP_OK ->
  malloc_ok d = false ->
  exists channels,
    narrow_channels a = Some channels /\
    run (adc_mic_read d a) =
      (Raise (OSError ENOMEM),
       [Ev_audio_codec_new_adc_data (make_cfg a channels) true;
        Ev_esp_codec_dev_new true;
        Ev_esp_codec_dev_open (make_fs a) ESP_OK;
        Ev_heap_caps_malloc (buf_size a) false;
        Ev_esp_codec_dev_close;
        Ev_esp_codec_dev_delete;
        Ev_audio_codec_delete_data_if]) /\
    Forall (fun ev => is_read ev = false) (trace d a).
Proof.
  intros Hwf Hv Hif Hdev Hopen Hmem.
  destruct (narrow_channels_validated a Hwf Hv) as [channels Hch].
  exists channels. split; [exact Hch |].
  assert (setup_ok d = false) as Hs.
  { unfold setup_ok. rewrite Hmem. apply andb_false_r. }
  assert (run (adc_mic_read_body d a) =
            (Raise (OSError ENOMEM),
             setup_events d a channels ++
             [Ev_esp_codec_dev_close; Ev_esp_codec_dev_delete;
              Ev_audio_codec_delete_data_if])) as E.
  { pose proof Hv as Hv'. apply validation_ok_iff in Hv' as [H10 Hlen].
    body_cases d a E; try congruence; try lia. }
  rewrite trace_body, run_adc_mic_read, E.
  unfold setup_events. rewrite Hopen, Hmem. cbn [app snd].
  split; [reflexivity |].
  repeat constructor.
Qed.

Lemma C6_allocation_failure_witness :
  exists channels,
    narrow_channels (Args 256 0 [0; 1] 2 16000 0) = Some channels /\
    run (adc_mic_read
           {| new_adc_data_ok := true; dev_new_ok := true; dev_open_ret := ESP_OK;
              malloc_ok := false; dev_read := fun _ => (0, mem_of_list []);
              new_bytes_ok := true |}
           (Args 256 0 [0; 1] 2 16000 0)) =
      (Raise (OSError ENOMEM),
       [Ev_audio_codec_new_adc_data (make_cfg (Args 256 0 [0; 1] 2 16000 0) channels) true;
        Ev_esp_codec_dev_new true;
        Ev_esp_codec_dev_open (make_fs (Args 256 0 [0; 1] 2 16000 0)) ESP_OK;
        Ev_heap_caps_malloc (buf_size (Args 256 0 [0; 1] 2 16000 0)) false;
        Ev_esp_codec_dev_close;
        Ev_esp_codec_dev_delete;
        Ev_audio_codec_delete_data_if]) /\
    Forall (fun ev => is_read ev = false)
      (trace
         {| new_adc_data_ok := true; dev_new_ok := true; dev_open_ret := ESP_OK;
            malloc_ok := false; dev_read := fun _ => (0, mem_of_list []);
              new_bytes_ok := true |}
         (Args 256 0 [0; 1] 2 16000 0)).
Proof.
  apply C6_allocation_failure; reflexivity.
Defined.

(** ** C9: exactly when [ValueError] is raised *)

(** C9.  The call raises [ValueError] if and only if [adc_channel_num > 10]
    or [channel_list_len < adc_channel_num] as C compares them, the [int]
    converted to [size_t].  So a count of 0 is accepted, [chunk_samples = 0]
    is accepted whenever the count is, and every negative count is rejected
    by the second check, having become a value of at least 2^31. *)
Theorem C9_value_error_iff d a :
  (is_ValueError (outcome d a) = true <->
   arg_adc_channel_num a > 10 \/
   channel_list_len a < to_size_t (arg_adc_channel_num a)) /\
  (arg_adc_channel_num a = 0 -> is_ValueError (outcome d a) = false) /\
  (arg_chunk_samples a = 0 ->
   0 <= arg_adc_channel_num a <= 10 ->
   arg_adc_channel_num a <= channel_list_len a ->
   is_ValueError (outcome d a) = false) /\
  (wf_args a = true -> arg_adc_channel_num a < 0 ->
   arg_adc_channel_num a <= 10 /\
   2 ^ 31 <= to_size_t (arg_adc_channel_num a) /\
   run (adc_mic_read d a) =
     (Raise (ValueError "adc_channel_list shorter than adc_channel_num"), [])).
Proof.
  assert (is_ValueError (outcome d a) = true <-> validation_ok a = false) as Hiff.
  { rewrite outcome_body.
    body_cases d a E; cbn [fst is_ValueError]; split; intros Hx;
      try congruence; try reflexivity.
    - apply not_true_iff_false. rewrite validation_ok_iff. lia.
    - apply not_true_iff_false. rewrite validation_ok_iff. lia. }
  assert (forall b : bool, (b = true <-> validation_ok a = false) ->
                           validation_ok a = true -> b = false) as Hacc.
  { intros b Hb Hv. destruct b; [| reflexivity].
    destruct Hb as [Hb _]. rewrite Hb in Hv by reflexivity. discriminate. }
  split; [| split; [| split]].
  - rewrite Hiff. rewrite <- not_true_iff_false, validation_ok_iff.
    lia.
  - intros H0. apply (Hacc _ Hiff). apply validation_ok_iff.
    rewrite H0. rewrite to_size_t_small by (unfold SIZE_MOD; lia).
    unfold channel_list_len. lia.
  - intros _ Hc Hl. apply (Hacc _ Hiff). apply validation_ok_iff.
    rewrite to_size_t_small by (unfold SIZE_MOD; lia). lia.
  - intros Hwf Hneg.
    pose proof (wf_args_channel_num a Hwf) as Hc.
    pose proof (wf_args_len a Hwf) as Hl.
    assert (to_size_t (arg_adc_channel_num a) = arg_adc_channel_num a + SIZE_MOD) as Hs
      by (apply to_size_t_neg; lia).
    unfold SIZE_MOD, INT_MIN in *.
    split; [lia |]. split; [lia |].
    rewrite run_adc_mic_read.
    body_cases d a E; try reflexivity; try lia;
      match goal with
      | Hv : validation_ok a = true |- _ => apply validation_ok_iff in Hv; lia
      end.
Qed.

Lemma C9_value_error_witness :
  is_ValueError (outcome (driver_ok 0 []) (Args 256 0 [] 0 16000 0)) = false /\
  is_ValueError (outcome (driver_ok 0 []) (Args 0 0 [0; 1] 2 16000 0)) = false /\
  run (adc_mic_read (driver_ok 0 []) (Args 256 0 [0; 1] (-1) 16000 0)) =
    (Raise (ValueError "adc_channel_list shorter than adc_channel_num"), []).
Proof.
  split; [| split].
  - destruct (C9_value_error_iff (driver_ok 0 []) (Args 256 0 [] 0 16000 0))
      as (_ & Hzero & _ & _).
    apply Hzero. reflexivity.
  - destruct (C9_value_error_iff (driver_ok 0 []) (Args 0 0 [0; 1] 2 16000 0))
      as (_ & _ & Hsamples & _).
    apply Hsamples; [reflexivity | cbn; lia |].
    unfold channel_list_len. cbn [arg_adc_channel_num arg_channel_list length]. lia.
  - destruct (C9_value_error_iff (driver_ok 0 []) (Args 256 0 [0; 1] (-1) 16000 0))
      as (_ & _ & _ & Hneg).
    apply Hneg; [reflexivity | cbn; lia].
Defined.

(** ** C10: the narrowing loop stays inside [channels[10]] *)

(** C10.  For arguments the validator accepts ([adc_channel_num <= 10] and
    [channel_list_len] not below [adc_channel_num] in the validator's own
    comparison), every index at which the narrowing loop writes is below 10:
    the loop runs to completion without leaving [channels] or the item
    array, and the first [adc_channel_num] cells hold the narrowed items. *)
Theorem C10_narrowing_in_bounds a :
  wf_args a = true ->
  arg_adc_channel_num a <= 10 ->
  to_size_t (arg_adc_channel_num a) <= channel_list_len a ->
  (forall i : nat,
     (i < Z.to_nat (to_size_t (arg_adc_channel_num a)))%nat -> (i < CHANNELS_LEN)%nat) /\
  exists channels,
    narrow_channels a = Some channels /\
    length channels = CHANNELS_LEN /\
    forall i : nat,
      (i < Z.to_nat (to_size_t (arg_adc_channel_num a)))%nat ->
      channels !! i = (fun item => Some (to_uint8_t item)) <$> arg_channel_list a !! i.
Proof.
  intros Hwf H10 Hlen.
  assert (validation_ok a = true) as Hv by (apply validation_ok_iff; lia).
  destruct (validation_ok_bounds a Hwf Hv) as [Hc Hl].
  assert (to_size_t (arg_adc_channel_num a) = arg_adc_channel_num a) as Hs
    by (apply to_size_t_small; unfold SIZE_MOD; lia).
  split.
  - intros i Hi. rewrite Hs in Hi. unfold CHANNELS_LEN. lia.
  - destruct (narrow_channels_validated a Hwf Hv) as [channels Hch].
    exists channels. split; [exact Hch |]. split.
    + apply narrow_loop_length in Hch. rewrite Hch.
      unfold channels_init. apply length_replicate.
    + intros i Hi. unfold narrow_channels in Hch.
      rewrite (narrow_loop_lookup _ _ _ _ _ i Hch).
      case_decide; [reflexivity | lia].
Qed.

Lemma C10_narrowing_witness :
  (forall i : nat, (i < 3)%nat -> (i < CHANNELS_LEN)%nat) /\
  exists channels,
    narrow_channels (Args 256 0 [0; 1; 300] 3 16000 0) = Some channels /\
    length channels = CHANNELS_LEN /\
    forall i : nat,
      (i < 3)%nat ->
      channels !! i = (fun item => Some (to_uint8_t item)) <$> [0; 1; 300] !! i.
Proof.
  apply (C10_narrowing_in_bounds (Args 256 0 [0; 1; 300] 3 16000 0)).
  - reflexivity.
  - cbn. lia.
  - vm_compute. discriminate.
Defined.

(** Without the validator the loop does leave the array: eleven channels
    write at index 10. *)
Example narrow_eleven_faults :
  narrow_channels (Args 256 0 [0; 1; 2; 3; 4; 5; 6; 7; 8; 9; 10] 11 16000 0) = None.
Proof. reflexivity. Qed.

(** ** C4: teardown mirrors set-up *)

(** What the code does.  On every path but one the resources given back
    are exactly the resources handed out, in reverse order: buffer, open
    device, device, data interface, each at most once, and nothing that was
    never acquired; no release comes before an acquisition.  The one path
    is the snapshot leaving by [MemoryError]. *)
Lemma release_reverse_of_acquisition d a :
  outcome d a <> Raise MemoryError ->
  released (trace d a) = reverse (acquired (trace d a)) /\
  NoDup (released (trace d a)) /\
  exists t1 t2,
    trace d a = t1 ++ t2 /\ released t1 = [] /\ acquired t2 = [].
Proof.
  rewrite outcome_body, trace_body.
  body_cases d a E; cbn [fst snd]; intros Hout;
    try match goal with
        | Hs : setup_ok d = true |- _ =>
            destruct (setup_ok_inv d Hs) as (_ & _ & Hopen & Hmem)
        end;
    unfold setup_events, teardown_events, released, acquired;
    repeat match goal with
           | H : dev_open_ret d = ESP_OK |- _ => rewrite !H
           | H : malloc_ok d = _ |- _ => rewrite !H
           end;
    cbn [app omap list_omap acquires releases Z.eqb ESP_OK].
  - split; [reflexivity |]. split; [constructor |]. exists [], []. auto.
  - split; [reflexivity |]. split; [constructor |]. exists [], []. auto.
  - split; [reflexivity |]. split; [constructor |]. exists [], []. auto.
  - split; [reflexivity |]. split; [constructor |].
    eexists [_], []. auto.
  - split; [reflexivity |].
    split; [apply (bool_decide_unpack _); vm_compute; exact I |].
    eexists [_; _], [_]. auto.
  - assert ((dev_open_ret d =? ESP_OK) = false) as -> by (apply Z.eqb_neq; assumption).
    split; [reflexivity |].
    split; [apply (bool_decide_unpack _); vm_compute; exact I |].
    eexists [_; _; _], [_; _].
    cbn [app omap list_omap acquires releases]. auto.
  - split; [reflexivity |].
    split; [apply (bool_decide_unpack _); vm_compute; exact I |].
    eexists [_; _; _; _], [_; _; _]. auto.
  - split; [reflexivity |].
    split; [apply (bool_decide_unpack _); vm_compute; exact I |].
    eexists [_; _; _; _; _; _], [_; _; _; _]. auto.
  - congruence.
  - split; [reflexivity |].
    split; [apply (bool_decide_unpack _); vm_compute; exact I |].
    eexists [_; _; _; _; _; _; _; _], [_; _; _; _]. auto.
Qed.

(** When the snapshot leaves by [MemoryError], all four resources have
    been acquired and none is given back. *)
Lemma snapshot_failure_releases_nothing d a :
  wf_args a = true -> validation_ok a = true -> setup_ok d = true ->
  0 <= fst (dev_read d 0) -> new_bytes_ok d = false ->
  outcome d a = Raise MemoryError /\
  acquired (trace d a) = [R_data_if; R_device; R_open; R_buffer] /\
  released (trace d a) = [].
Proof.
  intros Hwf Hv Hs Hr Hroom.
  destruct (run_snapshot_failed d a Hwf Hv Hs Hr Hroom) as (channels & _ & E).
  destruct (setup_ok_inv d Hs) as (_ & _ & Hopen & Hmem).
  rewrite outcome_body, trace_body, E. cbn [fst snd].
  unfold setup_events, acquired, released. rewrite Hopen, Hmem.
  repeat split; reflexivity.
Qed.

(** C4 (the code departs from the claim).  The claim: on every execution
    path the acquired resources are released, in reverse order of
    acquisition.  The code: for 10240 samples on one channel, with set-up
    and read succeeding and no room on the runtime heap for the 20480
    bytes of the result, [mp_obj_new_bytes] at line 149 leaves by
    [MemoryError] from inside the loop; the cleanup at lines 162-165 is
    never reached, so the data interface, the device, the open stream and
    the buffer have all been acquired and none of them is released. *)
Theorem C4_snapshot_failure_leaks_everything :
  run (adc_mic_read (driver_heap_full 0 []) mono_args) =
    (Raise MemoryError,
     [Ev_audio_codec_new_adc_data
        (make_cfg mono_args
           [Some 0; None; None; None; None; None; None; None; None; None]) true;
      Ev_esp_codec_dev_new true;
      Ev_esp_codec_dev_open (make_fs mono_args) 0;
      Ev_heap_caps_malloc 20480 true;
      Ev_esp_task_wdt_reset;
      Ev_esp_codec_dev_read 20480 0;
      Ev_vTaskDelay_ms 1;
      Ev_mp_obj_new_bytes 20480]) /\
  acquired (trace (driver_heap_full 0 []) mono_args) =
    [R_data_if; R_device; R_open; R_buffer] /\
  released (trace (driver_heap_full 0 []) mono_args) = [] /\
  released (trace (driver_heap_full 0 []) mono_args) <>
    reverse (acquired (trace (driver_heap_full 0 []) mono_args)).
Proof.
  split; [vm_compute; reflexivity |].
  split; [vm_compute; reflexivity |].
  split; [vm_compute; reflexivity |].
  vm_compute. discriminate.
Qed.

(** ** C8: the watchdog is reset before every read *)

Lemma is_wdt_reset_true ev : is_wdt_reset ev = true -> ev = Ev_esp_task_wdt_reset.
Proof. destruct ev; cbn; congruence. Qed.

Lemma guarded_from_app t : forall prev u,
  guarded_from prev (t ++ u) =
    guarded_from prev t && guarded_from (ends_with_wdt prev t) u.
Proof.
  induction t as [| ev t IH]; intros prev u; cbn [app guarded_from ends_with_wdt].
  - reflexivity.
  - rewrite IH. apply andb_assoc.
Qed.

Lemma ends_with_wdt_app t : forall prev u,
  ends_with_wdt prev (t ++ u) = ends_with_wdt (ends_with_wdt prev t) u.
Proof.
  induction t as [| ev t IH]; intros prev u; cbn [app ends_with_wdt].
  - reflexivity.
  - apply IH.
Qed.

(** The scan decides the property: a read it lets through is the head of
    the trace with a reset just before it, or has a reset as its
    predecessor inside the trace. *)
Lemma guarded_from_split t : forall prev pre ev post,
  guarded_from prev t = true ->
  t = pre ++ ev :: post -> is_read ev = true ->
  (pre = [] /\ prev = true) \/ exists pre', pre = pre' ++ [Ev_esp_task_wdt_reset].
Proof.
  induction t as [| e t IH]; intros prev pre ev post Hg Ht Hr.
  - destruct pre; discriminate.
  - cbn [guarded_from] in Hg. apply andb_prop in Hg as [Hhead Htail].
    destruct pre as [| p pre]; cbn [app] in Ht; injection Ht as -> ->.
    + left. rewrite Hr in Hhead. auto.
    + right.
      destruct (IH _ _ _ _ Htail eq_refl Hr) as [[-> Hw] | [pre' ->]].
      * exists []. apply is_wdt_reset_true in Hw. subst p. reflexivity.
      * exists (p :: pre'). reflexivity.
Qed.

Lemma guarded_from_sound t : guarded_from false t = true -> reads_guarded t.
Proof.
  intros Hg pre ev post Ht Hr.
  destruct (guarded_from_split t false pre ev post Hg Ht Hr) as [[_ Hf] | H].
  - discriminate.
  - exact H.
Qed.

(** The loop keeps a guarded trace guarded, whatever the number of turns,
    the chunk it starts from and the answers of the driver. *)
Lemma acquisition_loop_guarded d n_chunks n_samples size k :
  forall chunk st t,
    guarded_from false t = true ->
    guarded_from false
      (snd (acquisition_loop d n_chunks n_samples size k chunk st t)) = true.
Proof.
  induction k as [| k IH]; intros chunk st t Hg.
  - exact Hg.
  - loop_turn d chunk n_chunks Hr Hlast Hroom.
    + cbn [snd]. rewrite guarded_from_app, Hg. reflexivity.
    + apply IH. rewrite guarded_from_app, Hg.
      destruct (chunk =? n_chunks - 1); reflexivity.
    + cbn [snd]. rewrite guarded_from_app, Hg. reflexivity.
    + apply IH. rewrite guarded_from_app, Hg.
      destruct (chunk =? n_chunks - 1); reflexivity.
Qed.

(** C8.  In the trace of every call, each [esp_codec_dev_read] has an
    [esp_task_wdt_reset] as its immediate predecessor.  The same holds for
    the acquisition loop taken alone, for any number of iterations: every
    iteration resets the watchdog and then reads. *)
Theorem C8_watchdog_before_read d a :
  reads_guarded (trace d a) /\
  forall n_chunks n_samples size k chunk st,
    reads_guarded (snd (acquisition_loop d n_chunks n_samples size k chunk st [])).
Proof.
  split.
  - apply guarded_from_sound. rewrite trace_body.
    body_cases d a E; reflexivity.
  - intros n_chunks n_samples size k chunk st.
    apply guarded_from_sound, acquisition_loop_guarded. reflexivity.
Qed.

(** Three iterations, the second read failing: each read follows a reset. *)
Example acquisition_loop_three_chunks :
  snd (acquisition_loop
         {| new_adc_data_ok := true; dev_new_ok := true; dev_open_ret := ESP_OK;
            malloc_ok := true;
            dev_read := fun chunk => (if chunk =? 1 then -1 else 0, mem_of_list []);
              new_bytes_ok := true |}
         3 0 0 3 0 locals_init []) =
    [Ev_esp_task_wdt_reset; Ev_esp_codec_dev_read 0 0; Ev_vTaskDelay_ms 1;
     Ev_esp_task_wdt_reset; Ev_esp_codec_dev_read 0 (-1)].
Proof. reflexivity. Qed.

(** ** C2: what the min/max loop scans *)

(** The loop is the running min/max reduction over the samples at indices
    [i], .., [i + n - 1]. *)
Lemma min_max_loop_spec n : forall i mem gmin gmax,
  min_max_loop n i mem gmin gmax =
    spec_min_max (map (audio_buffer mem) (seq i n)) gmin gmax.
Proof.
  induction n as [| n IH]; intros i mem gmin gmax.
  - reflexivity.
  - cbn [min_max_loop seq map]. rewrite IH.
    unfold spec_min_max. cbn [fold_left fst snd].
    f_equal. f_equal.
    + destruct (Z.ltb_spec (audio_buffer mem i) gmin); lia.
    + destruct (Z.gtb_spec (audio_buffer mem i) gmax); lia.
Qed.

Lemma spec_min_max_bounds samples : forall gmin gmax,
  fst (spec_min_max samples gmin gmax) <= gmin /\
  gmax <= snd (spec_min_max samples gmin gmax) /\
  Forall (fun s => fst (spec_min_max samples gmin gmax) <= s
                   <= snd (spec_min_max samples gmin gmax)) samples.
Proof.
  induction samples as [| s samples IH]; intros gmin gmax.
  - cbn. repeat split; try lia. constructor.
  - unfold spec_min_max in *. cbn [fold_left fst snd].
    destruct (IH (Z.min gmin s) (Z.max gmax s)) as (Hmin & Hmax & Hall).
    repeat split; try lia.
    constructor; [lia | exact Hall].
Qed.

(** What the code does.  In every loop iteration whose read succeeds, the
    statistics update examines the first [chunk_samples] samples of the
    freshly read buffer, indices 0 to [chunk_samples - 1] whatever the
    number of channels, and replaces [global_min] by its minimum and
    [global_max] by its maximum with each of those samples.  For the call
    as a whole, with its single iteration, the statistics at the end are
    that reduction started from 32767 and -32768. *)
Lemma min_max_over_first_samples d :
  (forall n_chunks n_samples size k chunk st t,
     0 <= fst (dev_read d chunk) ->
     chunk <> n_chunks - 1 \/ new_bytes_ok d = true ->
     acquisition_loop d n_chunks n_samples size (S k) chunk st t =
       acquisition_loop d n_chunks n_samples size k (chunk + 1)
         {| global_min :=
              fst (spec_min_max (buffer_samples (snd (dev_read d chunk)) (Z.to_nat n_samples))
                     (global_min st) (global_max st));
            global_max :=
              snd (spec_min_max (buffer_samples (snd (dev_read d chunk)) (Z.to_nat n_samples))
                     (global_min st) (global_max st));
            last_buf_obj := if chunk =? n_chunks - 1
                            then mp_obj_new_bytes (snd (dev_read d chunk)) size
                            else last_buf_obj st |}
         (t ++ [Ev_esp_task_wdt_reset;
                Ev_esp_codec_dev_read (to_int size) (fst (dev_read d chunk));
                Ev_vTaskDelay_ms 1] ++
               (if chunk =? n_chunks - 1 then [Ev_mp_obj_new_bytes size] else []))) /\
  (forall a,
     wf_args a = true -> validation_ok a = true -> setup_ok d = true ->
     0 <= fst (dev_read d 0) -> new_bytes_ok d = true ->
     exists st,
       final_locals d a = Ok st /\
       (global_min st, global_max st) =
         spec_min_max (buffer_samples (snd (dev_read d 0)) (Z.to_nat (chunk_samples a)))
           32767 (-32768)).
Proof.
  split.
  - intros n_chunks n_samples size k chunk st t Hr Hroom.
    rewrite acquisition_loop_step by assumption.
    rewrite min_max_loop_spec. reflexivity.
  - intros a Hwf Hv Hs Hr Hroom.
    destruct (run_read_ok d a Hwf Hv Hs Hr Hroom) as (channels & _ & E).
    unfold final_locals. rewrite E. cbn [fst].
    eexists. split; [reflexivity |].
    cbn [global_min global_max]. rewrite min_max_loop_spec.
    unfold buffer_samples.
    destruct (spec_min_max _ _ _); reflexivity.
Qed.

Example min_max_over_first_samples_stereo :
  exists st,
    final_locals stereo_driver stereo_args = Ok st /\
    (global_min st, global_max st) =
      spec_min_max
        (buffer_samples (snd (dev_read stereo_driver 0))
           (Z.to_nat (chunk_samples stereo_args)))
        32767 (-32768).
Proof.
  destruct (min_max_over_first_samples stereo_driver) as [_ Hcall].
  apply (Hcall stereo_args); [reflexivity | reflexivity | reflexivity | | reflexivity].
  cbn. lia.
Qed.

(** C2 (the code departs from the claim).  The claim: a successful
    iteration examines all [chunk_samples * adc_channel_num] interleaved
    samples of the buffer, taking min and max with each.  The code: with one
    sample per channel on two channels and a buffer holding 0 and 5, the
    call ends with [global_min = global_max = 0]; the second of the 1 x 2
    samples was not examined, whereas the reduction over all of them gives
    a maximum of 5.  The loop bound is [chunk_samples], not the number of
    samples in the buffer. *)
Theorem C2_later_samples_not_examined :
  exists st,
    final_locals stereo_driver stereo_args = Ok st /\
    (global_min st, global_max st) = (0, 0) /\
    spec_min_max
      (buffer_samples (snd (dev_read stereo_driver 0))
         (Z.to_nat (chunk_samples stereo_args * arg_adc_channel_num stereo_args)))
      32767 (-32768) = (0, 5) /\
    (global_min st, global_max st) <>
      spec_min_max
        (buffer_samples (snd (dev_read stereo_driver 0))
           (Z.to_nat (chunk_samples stereo_args * arg_adc_channel_num stereo_args)))
        32767 (-32768).
Proof.
  eexists. split; [vm_compute; reflexivity |].
  split; [reflexivity |]. split; [vm_compute; reflexivity |].
  vm_compute. discriminate.
Qed.

(** ** C7: the returned bytes *)

Lemma lookup_map_seq (mem : memory) n : forall k0 k,
  map mem (seq k0 n) !! k = if decide (k < n)%nat then Some (mem (k0 + k)%nat) else None.
Proof.
  induction n as [| n IH]; intros k0 k; cbn [seq map].
  - case_decide; [lia | reflexivity].
  - destruct k as [| k]; cbn [lookup list_lookup].
    + case_decide; [| lia]. f_equal. f_equal. lia.
    + change (map mem (seq (S k0) n) !! k =
                if decide (S k < S n)%nat then Some (mem (k0 + S k)%nat) else None).
      rewrite IH. repeat case_decide; try lia; try reflexivity.
      f_equal. f_equal. lia.
Qed.

Lemma length_map_seq (mem : memory) n k0 : length (map mem (seq k0 n)) = n.
Proof. rewrite length_map, length_seq. reflexivity. Qed.

(** After a successful read, and with room on the runtime heap, the call
    returns the first [buf_size] bytes of the buffer. *)
Lemma read_success_outcome d a :
  wf_args a = true -> validation_ok a = true -> setup_ok d = true ->
  0 <= fst (dev_read d 0) -> new_bytes_ok d = true ->
  outcome d a = Ok (mp_obj_new_bytes (snd (dev_read d 0)) (buf_size a)).
Proof.
  intros Hwf Hv Hs Hr Hroom.
  destruct (run_read_ok d a Hwf Hv Hs Hr Hroom) as (channels & _ & E).
  rewrite outcome_body, E. reflexivity.
Qed.

Lemma length_new_bytes_data (mem : memory) size :
  0 <= size ->
  Z.of_nat (length (map mem (seq 0 (Z.to_nat size)))) = size.
Proof. intros H. rewrite length_map_seq. apply Z2Nat.id. exact H. Qed.

(** The length of what a successful call returns is the byte count as
    32-bit [size_t] arithmetic computes it. *)
Lemma returned_length_mod d a :
  wf_args a = true -> validation_ok a = true -> setup_ok d = true ->
  0 <= fst (dev_read d 0) -> new_bytes_ok d = true ->
  exists bs,
    outcome d a = Ok (mp_obj_bytes bs) /\
    Z.of_nat (length bs) = (chunk_samples a * arg_adc_channel_num a * 2) mod 2 ^ 32.
Proof.
  intros Hwf Hv Hs Hr Hroom.
  destruct (validation_ok_bounds a Hwf Hv) as [Hc _].
  pose proof (buf_size_range a) as Hb.
  eexists. split; [apply read_success_outcome; assumption |].
  rewrite length_new_bytes_data by lia.
  apply buf_size_mod. unfold SIZE_MOD. lia.
Qed.

(** A byte count of 2^32 or more wraps, and only for requests far beyond
    the memory of the target: with at most ten channels
    [chunk_samples * 2] is then at least 429496730, so either the wrapped
    [buf_size] is smaller than that and the min/max loop runs off the
    buffer, or the allocator has granted at least 429496730 bytes of
    internal memory. *)
Lemma size_wrap_needs_huge_buffer a :
  wf_args a = true -> validation_ok a = true ->
  2 ^ 32 <= chunk_samples a * arg_adc_channel_num a * 2 ->
  429496730 <= chunk_samples a * 2 /\
  (buf_size a < chunk_samples a * 2 \/ 429496730 <= buf_size a).
Proof.
  intros Hwf Hv Hwrap.
  destruct (validation_ok_bounds a Hwf Hv) as [Hc _].
  pose proof (to_size_t_range (arg_chunk_samples a)) as Hn. fold (chunk_samples a) in Hn.
  assert (429496730 <= chunk_samples a * 2) as Hbig by nia.
  split; [exact Hbig | lia].
Qed.



(** In the arithmetic alone the wrap is there: 2^30 samples on three
    channels give a [buf_size] of 2^31. *)
Example buf_size_wraps : buf_size huge_args = 2147483648.
Proof. vm_compute. reflexivity. Qed.

(** ** C3: returned samples against the statistics *)

(** A sample read back from the returned bytes is the sample the loop saw
    at the same index. *)
Lemma sample_of_new_bytes (mem : memory) n i s :
  sample_of_bytes (map mem (seq 0 n)) i = Some s -> s = audio_buffer mem i.
Proof.
  unfold sample_of_bytes, audio_buffer. rewrite !lookup_map_seq.
  intros Hsample. repeat case_decide; try discriminate.
  injection Hsample as <-. reflexivity.
Qed.

(** What the code does.  After a successful read, every sample among the
    first [chunk_samples] 16-bit samples of the returned byte sequence lies
    between the [global_min] and [global_max] held at the end of the call.
    With one channel these are all the returned samples. *)
Lemma first_samples_within_min_max d a :
  wf_args a = true -> validation_ok a = true -> setup_ok d = true ->
  0 <= fst (dev_read d 0) -> new_bytes_ok d = true ->
  exists bs st,
    outcome d a = Ok (mp_obj_bytes bs) /\
    final_locals d a = Ok st /\
    (forall (i : nat) s,
       (i < Z.to_nat (chunk_samples a))%nat ->
       sample_of_bytes bs i = Some s ->
       global_min st <= s <= global_max st) /\
    (arg_adc_channel_num a = 1 ->
     forall (i : nat) s,
       sample_of_bytes bs i = Some s -> global_min st <= s <= global_max st).
Proof.
  intros Hwf Hv Hs Hr Hroom.
  destruct (run_read_ok d a Hwf Hv Hs Hr Hroom) as (channels & _ & E).
  assert (forall (i : nat) s,
            (i < Z.to_nat (chunk_samples a))%nat ->
            sample_of_bytes (map (snd (dev_read d 0)) (seq 0 (Z.to_nat (buf_size a)))) i = Some s ->
            fst (min_max_loop (Z.to_nat (chunk_samples a)) 0 (snd (dev_read d 0)) 32767 (-32768))
            <= s <=
            snd (min_max_loop (Z.to_nat (chunk_samples a)) 0 (snd (dev_read d 0)) 32767 (-32768)))
    as Hfirst.
  { intros i s Hi Hsample.
    apply sample_of_new_bytes in Hsample. subst s.
    rewrite min_max_loop_spec.
    destruct (spec_min_max_bounds
                (map (audio_buffer (snd (dev_read d 0))) (seq 0 (Z.to_nat (chunk_samples a))))
                32767 (-32768)) as (_ & _ & Hall).
    rewrite Forall_forall in Hall. apply Hall.
    apply list_elem_of_In, in_map, in_seq. lia. }
  eexists _, _. split; [apply read_success_outcome; assumption |].
  split; [unfold final_locals; rewrite E; reflexivity |].
  cbn [global_min global_max]. split; [exact Hfirst |].
  intros Hone i s Hsample.
  apply (Hfirst i s); [| exact Hsample].
  (* one channel: a sample inside the returned bytes has index below chunk_samples *)
  unfold sample_of_bytes in Hsample. rewrite !lookup_map_seq in Hsample.
  repeat case_decide; try discriminate.
  pose proof (to_size_t_range (arg_chunk_samples a)) as Hn. fold (chunk_samples a) in Hn.
  assert (buf_size a = (chunk_samples a * 1 * 2) mod SIZE_MOD) as Hsz
    by (rewrite <- Hone; apply buf_size_mod; rewrite Hone; unfold SIZE_MOD; lia).
  assert (buf_size a <= chunk_samples a * 2) as Hle.
  { rewrite Hsz. unfold SIZE_MOD in *.
    pose proof (Z.mod_le (chunk_samples a * 1 * 2) (2 ^ 32)). lia. }
  lia.
Qed.

Example first_samples_within_min_max_stereo :
  exists bs st,
    outcome stereo_driver stereo_args = Ok (mp_obj_bytes bs) /\
    final_locals stereo_driver stereo_args = Ok st /\
    (forall (i : nat) s,
       (i < Z.to_nat (chunk_samples stereo_args))%nat ->
       sample_of_bytes bs i = Some s ->
       global_min st <= s <= global_max st) /\
    (arg_adc_channel_num stereo_args = 1 ->
     forall (i : nat) s,
       sample_of_bytes bs i = Some s -> global_min st <= s <= global_max st).
Proof.
  apply (first_samples_within_min_max stereo_driver stereo_args);
    [reflexivity | reflexivity | reflexivity | | reflexivity].
  cbn. lia.
Qed.

(** C3 (the code departs from the claim).  The claim: after a successful
    read every 16-bit sample in the returned bytes lies between
    [global_min] and [global_max].  The code: with one sample per channel on
    two channels and a buffer holding 0 and 5, the returned bytes contain
    the sample 5 at index 1 while the call ends with [global_max = 0]. *)
Theorem C3_returned_sample_above_global_max :
  exists bs st,
    outcome stereo_driver stereo_args = Ok (mp_obj_bytes bs) /\
    final_locals stereo_driver stereo_args = Ok st /\
    sample_of_bytes bs 1 = Some 5 /\
    global_max st = 0 /\
    ~ (global_min st <= 5 <= global_max st).
Proof.
  eexists _, _. split; [vm_compute; reflexivity |].
  split; [vm_compute; reflexivity |].
  split; [reflexivity |]. split; [reflexivity |].
  cbn. lia.
Qed.

(** * Further properties of [adc_mic_read] *)

(** ** Set-up failures (lines 67-93) *)

Lemma validation_ok_inv a :
  validation_ok a = true ->
  (arg_adc_channel_num a >? 10) = false /\
  (channel_list_len a <? to_size_t (arg_adc_channel_num a)) = false.
Proof.
  unfold validation_ok. intros H. apply andb_prop in H as [H1 H2].
  apply negb_true_iff in H1, H2. auto.
Qed.

(** A path on which the whole set-up succeeded, against a hypothesis that
    one of its steps failed. *)
Ltac setup_contradiction :=
  match goal with
  | Hs : setup_ok _ = true |- _ =>
      destruct (setup_ok_inv _ Hs) as (? & ? & ? & ?); congruence
  end.

(** What the body does on each path that ends in the set-up, given the
    conditions that select it. *)
Lemma run_no_data_if d a channels :
  validation_ok a = true -> narrow_channels a = Some channels ->
  new_adc_data_ok d = false ->
  run (adc_mic_read_body d a) =
    (Raise (RuntimeError "Failed to init ADC interface" None),
     [Ev_audio_codec_new_adc_data (make_cfg a channels) false]).
Proof.
  intros Hv Hch Hif. destruct (validation_ok_inv a Hv) as [H10 Hlen].
  body_cases d a E; try congruence.
  all: setup_contradiction.
Qed.

Lemma run_no_dev d a channels :
  validation_ok a = true -> narrow_channels a = Some channels ->
  new_adc_data_ok d = true -> dev_new_ok d = false ->
  run (adc_mic_read_body d a) =
    (Raise (RuntimeError "Failed to create codec dev" None),
     [Ev_audio_codec_new_adc_data (make_cfg a channels) true;
      Ev_esp_codec_dev_new false;
      Ev_audio_codec_delete_data_if]).
Proof.
  intros Hv Hch Hif Hdev. destruct (validation_ok_inv a Hv) as [H10 Hlen].
  body_cases d a E; try congruence.
  all: setup_contradiction.
Qed.

Lemma run_open_failed d a channels :
  validation_ok a = true -> narrow_channels a = Some channels ->
  new_adc_data_ok d = true -> dev_new_ok d = true -> dev_open_ret d <> ESP_OK ->
  run (adc_mic_read_body d a) =
    (Raise (RuntimeError "esp_codec_dev_open failed: %d" (Some (dev_open_ret d))),
     [Ev_audio_codec_new_adc_data (make_cfg a channels) true;
      Ev_esp_codec_dev_new true;
      Ev_esp_codec_dev_open (make_fs a) (dev_open_ret d);
      Ev_esp_codec_dev_delete;
      Ev_audio_codec_delete_data_if]).
Proof.
  intros Hv Hch Hif Hdev Hopen. destruct (validation_ok_inv a Hv) as [H10 Hlen].
  body_cases d a E; try congruence.
  all: setup_contradiction.
Qed.

Lemma run_no_mem d a channels :
  validation_ok a = true -> narrow_channels a = Some channels ->
  new_adc_data_ok d = true -> dev_new_ok d = true -> dev_open_ret d = ESP_OK ->
  malloc_ok d = false ->
  run (adc_mic_read_body d a) =
    (Raise (OSError ENOMEM),
     setup_events d a channels ++
     [Ev_esp_codec_dev_close; Ev_esp_codec_dev_delete;
      Ev_audio_codec_delete_data_if]).
Proof.
  intros Hv Hch Hif Hdev Hopen Hmem. destruct (validation_ok_inv a Hv) as [H10 Hlen].
  body_cases d a E; try congruence.
  all: setup_contradiction.
Qed.

(** X1.  When validation passes and [audio_codec_new_adc_data] returns
    null, the call raises [RuntimeError("Failed to init ADC interface")];
    that creation attempt is the only call it has made, so nothing is
    deleted, closed or freed. *)
Theorem X1_data_interface_failure d a :
  wf_args a = true -> validation_ok a = true ->
  new_adc_data_ok d = false ->
  exists channels,
    narrow_channels a = Some channels /\
    run (adc_mic_read d a) =
      (Raise (RuntimeError "Failed to init ADC interface" None),
       [Ev_audio_codec_new_adc_data (make_cfg a channels) false]).
Proof.
  intros Hwf Hv Hif.
  destruct (narrow_channels_validated a Hwf Hv) as [channels Hch].
  exists channels. split; [exact Hch |].
  rewrite run_adc_mic_read, (run_no_data_if d a channels Hv Hch Hif). reflexivity.
Qed.

Lemma X1_data_interface_failure_witness :
  exists channels,
    narrow_channels stereo_args = Some channels /\
    run (adc_mic_read
           {| new_adc_data_ok := false; dev_new_ok := true; dev_open_ret := ESP_OK;
              malloc_ok := true; dev_read := fun _ => (0, mem_of_list []);
              new_bytes_ok := true |}
           stereo_args) =
      (Raise (RuntimeError "Failed to init ADC interface" None),
       [Ev_audio_codec_new_adc_data (make_cfg stereo_args channels) false]).
Proof. apply X1_data_interface_failure; reflexivity. Defined.

(** X2.  When the data interface was created and [esp_codec_dev_new]
    returns null, the call deletes the data interface, once, and raises
    [RuntimeError("Failed to create codec dev")]; the device is neither
    opened, closed nor deleted, and no buffer is allocated. *)
Theorem X2_device_creation_failure d a :
  wf_args a = true -> validation_ok a = true ->
  new_adc_data_ok d = true -> dev_new_ok d = false ->
  exists channels,
    narrow_channels a = Some channels /\
    run (adc_mic_read d a) =
      (Raise (RuntimeError "Failed to create codec dev" None),
       [Ev_audio_codec_new_adc_data (make_cfg a channels) true;
        Ev_esp_codec_dev_new false;
        Ev_audio_codec_delete_data_if]).
Proof.
  intros Hwf Hv Hif Hdev.
  destruct (narrow_channels_validated a Hwf Hv) as [channels Hch].
  exists channels. split; [exact Hch |].
  rewrite run_adc_mic_read, (run_no_dev d a channels Hv Hch Hif Hdev). reflexivity.
Qed.

Lemma X2_device_creation_failure_witness :
  exists channels,
    narrow_channels stereo_args = Some channels /\
    run (adc_mic_read
           {| new_adc_data_ok := true; dev_new_ok := false; dev_open_ret := ESP_OK;
              malloc_ok := true; dev_read := fun _ => (0, mem_of_list []);
              new_bytes_ok := true |}
           stereo_args) =
      (Raise (RuntimeError "Failed to create codec dev" None),
       [Ev_audio_codec_new_adc_data (make_cfg stereo_args channels) true;
        Ev_esp_codec_dev_new false;
        Ev_audio_codec_delete_data_if]).
Proof. apply X2_device_creation_failure; reflexivity. Defined.

(** X3.  When the device was created and [esp_codec_dev_open] returns a
    status other than [ESP_OK], the call deletes the device, then the data
    interface, and raises a [RuntimeError] that carries that status; the
    device is not closed and no buffer is allocated. *)
Theorem X3_open_failure d a :
  wf_args a = true -> validation_ok a = true ->
  new_adc_data_ok d = true -> dev_new_ok d = true -> dev_open_ret d <> ESP_OK ->
  exists channels,
    narrow_channels a = Some channels /\
    run (adc_mic_read d a) =
      (Raise (RuntimeError "esp_codec_dev_open failed: %d" (Some (dev_open_ret d))),
       [Ev_audio_codec_new_adc_data (make_cfg a channels) true;
        Ev_esp_codec_dev_new true;
        Ev_esp_codec_dev_open (make_fs a) (dev_open_ret d);
        Ev_esp_codec_dev_delete;
        Ev_audio_codec_delete_data_if]).
Proof.
  intros Hwf Hv Hif Hdev Hopen.
  destruct (narrow_channels_validated a Hwf Hv) as [channels Hch].
  exists channels. split; [exact Hch |].
  rewrite run_adc_mic_read, (run_open_failed d a channels Hv Hch Hif Hdev Hopen).
  reflexivity.
Qed.

Lemma X3_open_failure_witness :
  exists channels,
    narrow_channels stereo_args = Some channels /\
    run (adc_mic_read
           {| new_adc_data_ok := true; dev_new_ok := true; dev_open_ret := -1;
              malloc_ok := true; dev_read := fun _ => (0, mem_of_list []);
              new_bytes_ok := true |}
           stereo_args) =
      (Raise (RuntimeError "esp_codec_dev_open failed: %d" (Some (-1))),
       [Ev_audio_codec_new_adc_data (make_cfg stereo_args channels) true;
        Ev_esp_codec_dev_new true;
        Ev_esp_codec_dev_open (make_fs stereo_args) (-1);
        Ev_esp_codec_dev_delete;
        Ev_audio_codec_delete_data_if]).
Proof.
  apply (X3_open_failure
           {| new_adc_data_ok := true; dev_new_ok := true; dev_open_ret := -1;
              malloc_ok := true; dev_read := fun _ => (0, mem_of_list []);
              new_bytes_ok := true |}
           stereo_args); try reflexivity.
  cbn. discriminate.
Defined.

(** ** What the driver is told (lines 46-61) *)

(** X4.  For validated arguments the first call of the trace is
    [audio_codec_new_adc_data] with a channel array of ten cells: cell [i]
    below [adc_channel_num] holds the [i]-th channel id reduced modulo 256
    (a value in 0..255, the id itself when the id is already in that range;
    an id outside it is wrapped, not rejected), and the cells from
    [adc_channel_num] on are never written. *)
Theorem X4_driver_config d a :
  wf_args a = true -> validation_ok a = true ->
  exists channels,
    head (trace d a) =
      Some (Ev_audio_codec_new_adc_data (make_cfg a channels) (new_adc_data_ok d)) /\
    cfg_max_store_buf_size (make_cfg a channels) = 2048 /\
    cfg_conv_frame_size (make_cfg a channels) = 1024 /\
    length channels = CHANNELS_LEN /\
    (forall (i : nat) item,
       Z.of_nat i < arg_adc_channel_num a ->
       arg_channel_list a !! i = Some item ->
       channels !! i = Some (Some (item mod 256)) /\
       0 <= item mod 256 < 256 /\
       (0 <= item < 256 -> item mod 256 = item)) /\
    (forall i : nat,
       arg_adc_channel_num a <= Z.of_nat i -> (i < CHANNELS_LEN)%nat ->
       channels !! i = Some None).
Proof.
  intros Hwf Hv.
  destruct (validation_ok_bounds a Hwf Hv) as [Hc Hl].
  destruct (validation_ok_inv a Hv) as [H10 Hlen].
  destruct (narrow_channels_validated a Hwf Hv) as [channels Hch].
  assert (to_size_t (arg_adc_channel_num a) = arg_adc_channel_num a) as Hs
    by (apply to_size_t_small; unfold SIZE_MOD; lia).
  exists channels. split; [| split; [reflexivity | split; [reflexivity | split; [| split]]]].
  - rewrite trace_body.
    body_cases d a E; try congruence; cbn [snd];
      try match goal with
          | Hs' : setup_ok _ = true |- _ =>
              destruct (setup_ok_inv _ Hs') as (Hif & _ & _ & _)
          end;
      match goal with
      | Hif : new_adc_data_ok d = _, Hch' : narrow_channels a = Some ?c |- _ =>
          rewrite Hif; replace c with channels by congruence; reflexivity
      end.
  - apply narrow_loop_length in Hch. rewrite Hch.
    unfold channels_init. apply length_replicate.
  - intros i item Hi Hitem. unfold narrow_channels in Hch.
    rewrite (narrow_loop_lookup _ _ _ _ _ i Hch), Hs.
    case_decide; [| lia]. rewrite Hitem. cbn [fmap option_fmap option_map].
    unfold to_uint8_t. split; [reflexivity |]. split.
    + apply Z.mod_pos_bound. lia.
    + intros Hsmall. apply Z.mod_small. exact Hsmall.
  - intros i Hi Hten. unfold narrow_channels in Hch.
    rewrite (narrow_loop_lookup _ _ _ _ _ i Hch), Hs.
    case_decide; [lia |].
    unfold channels_init. apply lookup_replicate_2. exact Hten.
Qed.

Lemma X4_driver_config_witness :
  exists channels,
    head (trace stereo_driver (Args 256 0 [0; 300; 7] 2 16000 0)) =
      Some (Ev_audio_codec_new_adc_data
              (make_cfg (Args 256 0 [0; 300; 7] 2 16000 0) channels) true) /\
    cfg_max_store_buf_size (make_cfg (Args 256 0 [0; 300; 7] 2 16000 0) channels) = 2048 /\
    cfg_conv_frame_size (make_cfg (Args 256 0 [0; 300; 7] 2 16000 0) channels) = 1024 /\
    length channels = CHANNELS_LEN /\
    (forall (i : nat) item,
       Z.of_nat i < 2 ->
       [0; 300; 7] !! i = Some item ->
       channels !! i = Some (Some (item mod 256)) /\
       0 <= item mod 256 < 256 /\
       (0 <= item < 256 -> item mod 256 = item)) /\
    (forall i : nat,
       2 <= Z.of_nat i -> (i < CHANNELS_LEN)%nat -> channels !! i = Some None).
Proof.
  apply (X4_driver_config stereo_driver (Args 256 0 [0; 300; 7] 2 16000 0));
    reflexivity.
Defined.

(** ** One size for allocation, read and snapshot (lines 98-99, 122, 149) *)

Lemma divide_2_mod_size x : (2 | x) -> (2 | x mod SIZE_MOD).
Proof.
  intros Hx. unfold SIZE_MOD. rewrite Z.mod_eq by lia.
  apply Z.divide_sub_r; [exact Hx |].
  apply Z.divide_mul_l. exists (2 ^ 31). reflexivity.
Qed.

Lemma buf_size_even a : buf_size a mod 2 = 0.
Proof.
  apply Z.mod_divide; [lia |].
  unfold buf_size, size_mul. apply divide_2_mod_size.
  apply Z.divide_mul_l. apply divide_2_mod_size.
  apply Z.divide_mul_r. apply Z.divide_refl.
Qed.

Lemma to_int_small x : 0 <= x < 2 ^ 31 -> to_int x = x.
Proof.
  intros H. unfold to_int, SIZE_MOD. rewrite Z.mod_small by lia. lia.
Qed.

Lemma to_int_large x : 2 ^ 31 <= x < 2 ^ 32 -> to_int x = x - 2 ^ 32.
Proof.
  intros H. unfold to_int, SIZE_MOD.
  rewrite <- (Z.mod_add (x + 2 ^ 31) (-1) (2 ^ 32)) by lia.
  rewrite Z.mod_small by lia. lia.
Qed.

(** X5.  [heap_caps_malloc] and [mp_obj_new_bytes] are given [buf_size];
    [esp_codec_dev_read], whose length is an [int], is given [buf_size]
    converted to [int].  Below 2^31 that is the same value, so the read is
    never asked for more than was allocated and the snapshot never copies
    more; from 2^31 on the read is handed the negative [buf_size - 2^32].
    [buf_size] itself is a 32-bit value and is even, a whole number of
    16-bit samples. *)
Theorem X5_one_size d a :
  Forall (fun ev => forall size,
            event_size ev = Some size ->
            size = if is_read ev then to_int (buf_size a) else buf_size a)
         (trace d a) /\
  (buf_size a < 2 ^ 31 ->
   Forall (fun ev => forall size, event_size ev = Some size -> size = buf_size a)
          (trace d a)) /\
  (2 ^ 31 <= buf_size a ->
   to_int (buf_size a) = buf_size a - 2 ^ 32 /\ to_int (buf_size a) < 0) /\
  0 <= buf_size a < 2 ^ 32 /\
  buf_size a mod 2 = 0.
Proof.
  pose proof (buf_size_range a) as Hb. unfold SIZE_MOD in Hb.
  assert (Forall (fun ev => forall size,
                    event_size ev = Some size ->
                    size = if is_read ev then to_int (buf_size a) else buf_size a)
                 (trace d a)) as Hall.
  { rewrite trace_body.
    body_cases d a E; cbn [snd]; unfold setup_events, teardown_events; cbn [app];
      repeat (constructor;
              [cbn [event_size is_read]; intros size Hsize; congruence |]);
      constructor. }
  split; [exact Hall |]. split; [| split; [| split; [exact Hb | apply buf_size_even]]].
  - intros Hsmall. eapply Forall_impl; [exact Hall |].
    intros ev Hev size Hsize. rewrite (Hev size Hsize).
    destruct (is_read ev); [apply to_int_small; lia | reflexivity].
  - intros Hlarge. rewrite to_int_large by lia. lia.
Qed.

Lemma X5_one_size_witness :
  Forall (fun ev => forall size, event_size ev = Some size -> size = buf_size stereo_args)
         (trace stereo_driver stereo_args) /\
  (to_int (buf_size huge_args) = buf_size huge_args - 2 ^ 32 /\
   to_int (buf_size huge_args) < 0).
Proof.
  destruct (X5_one_size stereo_driver stereo_args) as (_ & Hsmall & _).
  destruct (X5_one_size stereo_driver huge_args) as (_ & _ & Hlarge & _).
  split.
  - apply Hsmall. reflexivity.
  - apply Hlarge. vm_compute. discriminate.
Defined.

(** ** The statistics (lines 112-134) *)

Lemma int16_of_bytes_range lo hi : in_int16 (int16_of_bytes lo hi).
Proof.
  unfold in_int16, int16_of_bytes.
  pose proof (Byte.to_N_bounded lo) as Hlo.
  pose proof (Byte.to_N_bounded hi) as Hhi.
  cbv zeta.
  destruct (Z.ltb_spec (Z.of_N (Byte.to_N lo) + 256 * Z.of_N (Byte.to_N hi)) 32768); lia.
Qed.

Lemma audio_buffer_range mem i : in_int16 (audio_buffer mem i).
Proof. apply int16_of_bytes_range. Qed.

Lemma spec_min_max_range samples : forall gmin gmax,
  Forall in_int16 samples -> in_int16 gmin -> in_int16 gmax ->
  in_int16 (fst (spec_min_max samples gmin gmax)) /\
  in_int16 (snd (spec_min_max samples gmin gmax)).
Proof.
  induction samples as [| s samples IH]; intros gmin gmax Hall Hmin Hmax.
  - cbn. auto.
  - apply Forall_cons in Hall as [Hs Hall].
    unfold spec_min_max in *. cbn [fold_left fst snd].
    apply IH; [exact Hall | |]; unfold in_int16 in *; lia.
Qed.

Lemma min_max_loop_range n mem gmin gmax :
  in_int16 gmin -> in_int16 gmax ->
  in_int16 (fst (min_max_loop n 0 mem gmin gmax)) /\
  in_int16 (snd (min_max_loop n 0 mem gmin gmax)).
Proof.
  intros Hmin Hmax. rewrite min_max_loop_spec.
  apply spec_min_max_range; [| exact Hmin | exact Hmax].
  apply Forall_forall. intros s Hs.
  apply list_elem_of_In, in_map_iff in Hs as (i & <- & _).
  apply audio_buffer_range.
Qed.

Lemma min_max_loop_monotone n mem gmin gmax :
  fst (min_max_loop n 0 mem gmin gmax) <= gmin /\
  gmax <= snd (min_max_loop n 0 mem gmin gmax).
Proof.
  rewrite min_max_loop_spec.
  destruct (spec_min_max_bounds (map (audio_buffer mem) (seq 0 n)) gmin gmax)
    as (Hmin & Hmax & _).
  auto.
Qed.

(** Once a sample was examined the minimum is not above the maximum. *)
Lemma min_max_loop_ordered n mem gmin gmax :
  (0 < n)%nat ->
  fst (min_max_loop n 0 mem gmin gmax) <= snd (min_max_loop n 0 mem gmin gmax).
Proof.
  intros Hn. rewrite min_max_loop_spec.
  destruct n as [| n]; [lia |].
  destruct (spec_min_max_bounds (map (audio_buffer mem) (seq 0 (S n))) gmin gmax)
    as (_ & _ & Hall).
  cbn [seq map] in Hall. apply Forall_cons in Hall as [Hs _].
  cbn [seq map]. lia.
Qed.

(** The loop, whatever the number of turns and the driver's answers,
    either ends normally, having lowered the minimum and raised the maximum
    only and kept both inside [int16_t], or leaves by [MemoryError] because
    the runtime heap had no room for the snapshot. *)
Lemma acquisition_loop_stats d n_chunks n_samples size k :
  forall chunk st t,
  exists r t',
    acquisition_loop d n_chunks n_samples size k chunk st t = (r, t') /\
    ((exists st',
        r = Ok st' /\
        global_min st' <= global_min st /\
        global_max st <= global_max st' /\
        (in_int16 (global_min st) -> in_int16 (global_max st) ->
         in_int16 (global_min st') /\ in_int16 (global_max st'))) \/
     (r = Raise MemoryError /\ new_bytes_ok d = false)).
Proof.
  induction k as [| k IH]; intros chunk st t.
  - exists (Ok st), t. split; [reflexivity |]. left. exists st.
    split; [reflexivity |]. split; [lia |]. split; [lia |]. auto.
  - pose proof (min_max_loop_monotone (Z.to_nat n_samples) (snd (dev_read d chunk))
                  (global_min st) (global_max st)) as [Hm1 Hm2].
    pose proof (min_max_loop_range (Z.to_nat n_samples) (snd (dev_read d chunk))
                  (global_min st) (global_max st)) as Hmr.
    loop_turn d chunk n_chunks Hr Hlast Hroom.
    + eexists _, _. split; [reflexivity |]. left. exists st.
      split; [reflexivity |]. split; [lia |]. split; [lia |]. auto.
    + match goal with
      | |- context [acquisition_loop _ _ _ _ k ?c ?s ?u] =>
          destruct (IH c s u) as (r & t' & E & [(st' & -> & Hmin & Hmax & Hrange) | Hfail])
      end.
      * cbn [global_min global_max] in Hmin, Hmax, Hrange.
        exists (Ok st'), t'. split; [exact E |]. left. exists st'.
        split; [reflexivity |]. split; [lia |]. split; [lia |].
        intros H1 H2. apply Hrange; apply (Hmr H1 H2).
      * exists r, t'. split; [exact E |]. right. exact Hfail.
    + eexists _, _. split; [reflexivity |]. right. auto.
    + match goal with
      | |- context [acquisition_loop _ _ _ _ k ?c ?s ?u] =>
          destruct (IH c s u) as (r & t' & E & [(st' & -> & Hmin & Hmax & Hrange) | Hfail])
      end.
      * cbn [global_min global_max] in Hmin, Hmax, Hrange.
        exists (Ok st'), t'. split; [exact E |]. left. exists st'.
        split; [reflexivity |]. split; [lia |]. split; [lia |].
        intros H1 H2. apply Hrange; apply (Hmr H1 H2).
      * exists r, t'. split; [exact E |]. right. exact Hfail.
Qed.

(** X6.  [global_min] and [global_max] never leave the range of the
    [int16_t] variables that hold them: for any number of iterations and
    any driver answers the loop either ends normally with both in
    -32768..32767 or leaves by [MemoryError], which it can only do when the
    runtime heap has no room for the snapshot; and both are in range at
    the end of every call that reaches the report. *)
Theorem X6_statistics_fit_int16 d :
  (forall n_chunks n_samples size k chunk st t,
     in_int16 (global_min st) -> in_int16 (global_max st) ->
     exists r t',
       acquisition_loop d n_chunks n_samples size k chunk st t = (r, t') /\
       ((exists st',
           r = Ok st' /\ in_int16 (global_min st') /\ in_int16 (global_max st')) \/
        (r = Raise MemoryError /\ new_bytes_ok d = false))) /\
  (forall a st,
     final_locals d a = Ok st ->
     in_int16 (global_min st) /\ in_int16 (global_max st)).
Proof.
  split.
  - intros n_chunks n_samples size k chunk st t Hmin Hmax.
    destruct (acquisition_loop_stats d n_chunks n_samples size k chunk st t)
      as (r & t' & E & [(st' & -> & _ & _ & Hrange) | Hfail]).
    + exists (Ok st'), t'. split; [exact E |]. left. exists st'.
      split; [reflexivity |]. apply Hrange; assumption.
    + exists r, t'. split; [exact E |]. right. exact Hfail.
  - intros a st. unfold final_locals.
    body_cases d a E; cbn [fst]; intros Hst; try discriminate;
      injection Hst as <-; cbn [global_min global_max locals_init].
    + unfold in_int16. lia.
    + apply min_max_loop_range; unfold in_int16; lia.
Qed.

Lemma X6_statistics_witness :
  (exists r t',
     acquisition_loop stereo_driver 3 2 4 3 0 locals_init [] = (r, t') /\
     ((exists st',
         r = Ok st' /\ in_int16 (global_min st') /\ in_int16 (global_max st')) \/
      (r = Raise MemoryError /\ new_bytes_ok stereo_driver = false))) /\
  (exists st,
     final_locals stereo_driver stereo_args = Ok st /\
     in_int16 (global_min st) /\ in_int16 (global_max st)).
Proof.
  destruct (X6_statistics_fit_int16 stereo_driver) as [Hloop Hcall].
  split.
  - apply Hloop; cbn; unfold in_int16; lia.
  - exists {| global_min := 0; global_max := 0;
              last_buf_obj := mp_obj_bytes [x00; x00; x05; x00] |}.
    split; [reflexivity |].
    apply (Hcall stereo_args). reflexivity.
Defined.

(** X7.  The statistics are a running reduction: no iteration raises
    [global_min] or lowers [global_max], so a loop that ends normally ends
    with a minimum not above and a maximum not below those it started
    with (the only other way out is [MemoryError] from a snapshot without
    room).  At the end of a call, the minimum is at most the maximum as
    soon as the read succeeded and at least one sample was examined; when
    the read failed or [chunk_samples] is 0 they are still the initial
    32767 and -32768, minimum above maximum. *)
Theorem X7_statistics_monotone d :
  (forall n_chunks n_samples size k chunk st t,
     exists r t',
       acquisition_loop d n_chunks n_samples size k chunk st t = (r, t') /\
       ((exists st',
           r = Ok st' /\
           global_min st' <= global_min st /\ global_max st <= global_max st') \/
        (r = Raise MemoryError /\ new_bytes_ok d = false))) /\
  (forall a st,
     final_locals d a = Ok st ->
     (0 <= fst (dev_read d 0) -> 1 <= chunk_samples a ->
      global_min st <= global_max st) /\
     (fst (dev_read d 0) < 0 \/ chunk_samples a = 0 ->
      global_min st = 32767 /\ global_max st = -32768)).
Proof.
  split.
  - intros n_chunks n_samples size k chunk st t.
    destruct (acquisition_loop_stats d n_chunks n_samples size k chunk st t)
      as (r & t' & E & [(st' & -> & Hmin & Hmax & _) | Hfail]).
    + exists (Ok st'), t'. split; [exact E |]. left. exists st'. auto.
    + exists r, t'. split; [exact E |]. right. exact Hfail.
  - intros a st. unfold final_locals.
    body_cases d a E; cbn [fst]; intros Hst; try discriminate;
      injection Hst as <-; cbn [global_min global_max locals_init].
    + split; [lia | auto].
    + split.
      * intros _ Hn. apply min_max_loop_ordered. lia.
      * intros [Hneg | Hzero]; [lia |].
        rewrite Hzero. cbn. auto.
Qed.

Lemma X7_statistics_witness :
  (exists st,
     final_locals stereo_driver stereo_args = Ok st /\
     global_min st <= global_max st) /\
  (exists st,
     final_locals stereo_driver (Args 0 0 [0; 1] 2 16000 0) = Ok st /\
     global_min st = 32767 /\ global_max st = -32768).
Proof.
  destruct (X7_statistics_monotone stereo_driver) as [_ Hcall].
  split.
  - exists {| global_min := 0; global_max := 0;
              last_buf_obj := mp_obj_bytes [x00; x00; x05; x00] |}.
    split; [reflexivity |].
    apply (Hcall stereo_args);
      [reflexivity | vm_compute; discriminate | vm_compute; discriminate].
  - exists {| global_min := 32767; global_max := -32768;
              last_buf_obj := mp_obj_bytes [] |}.
    split; [reflexivity |].
    apply (Hcall (Args 0 0 [0; 1] 2 16000 0)); [reflexivity | right; reflexivity].
Defined.

(** ** The snapshot and the break (lines 120-151) *)

Lemma acquisition_loop_all_reads_succeed d n n_samples size k :
  forall chunk st t,
    chunk + Z.of_nat k = n -> (0 < k)%nat ->
    (forall c, chunk <= c < n -> 0 <= fst (dev_read d c)) ->
    new_bytes_ok d = true ->
    exists st' t',
      acquisition_loop d n n_samples size k chunk st t = (Ok st', t') /\
      last_buf_obj st' = mp_obj_new_bytes (snd (dev_read d (n - 1))) size.
Proof.
  induction k as [| k IH]; intros chunk st t Hn Hk Hall Hroom; [lia |].
  rewrite acquisition_loop_step by (auto; apply Hall; lia).
  destruct k as [| k].
  - assert (chunk = n - 1) as -> by lia.
    rewrite Z.eqb_refl. cbn [acquisition_loop].
    eexists _, _. split; reflexivity.
  - apply IH; [lia | lia | | exact Hroom]. intros c Hc. apply Hall. lia.
Qed.

Lemma acquisition_loop_no_room d n n_samples size k :
  forall chunk st t,
    chunk + Z.of_nat k = n -> (0 < k)%nat ->
    (forall c, chunk <= c < n -> 0 <= fst (dev_read d c)) ->
    new_bytes_ok d = false ->
    exists t',
      acquisition_loop d n n_samples size k chunk st t = (Raise MemoryError, t').
Proof.
  induction k as [| k IH]; intros chunk st t Hn Hk Hall Hroom; [lia |].
  destruct k as [| k].
  - rewrite acquisition_loop_snapshot_fails; [eauto | apply Hall; lia | lia | exact Hroom].
  - rewrite acquisition_loop_step; [| apply Hall; lia | left; lia].
    apply IH; [lia | lia | | exact Hroom]. intros c Hc. apply Hall. lia.
Qed.

Lemma acquisition_loop_some_read_fails d n n_samples size k :
  forall chunk st t,
    chunk + Z.of_nat k = n ->
    (exists c, chunk <= c < n /\ fst (dev_read d c) < 0) ->
    exists st' t',
      acquisition_loop d n n_samples size k chunk st t = (Ok st', t') /\
      last_buf_obj st' = last_buf_obj st.
Proof.
  induction k as [| k IH]; intros chunk st t Hn (c & Hc & Hfail); [lia |].
  destruct (Z_lt_le_dec (fst (dev_read d chunk)) 0) as [Hr | Hr].
  - rewrite acquisition_loop_abort by exact Hr.
    eexists _, _. split; reflexivity.
  - assert (c <> chunk) as Hne by (intros ->; lia).
    rewrite acquisition_loop_step; [| exact Hr | left; lia].
    assert ((chunk =? n - 1) = false) as -> by lia.
    match goal with
    | |- context [acquisition_loop _ _ _ _ k ?c' ?s ?u] =>
        destruct (IH c' s u) as (st' & t' & E & Hlast)
    end.
    + lia.
    + exists c. split; [lia | exact Hfail].
    + exists st', t'. split; [exact E |]. rewrite Hlast. reflexivity.
Qed.

(** X8.  For a loop of [n >= 1] chunks started at chunk 0: when all [n]
    reads succeed, [last_buf_obj] ends as the snapshot of the buffer left
    by the last read, provided the runtime heap has room for it, and the
    loop is left by [MemoryError] otherwise; when any of the reads fails,
    the earlier or the last one alike, the loop ends normally with
    [last_buf_obj] as it started.  The result is the complete last chunk or
    nothing, never an earlier chunk. *)
Theorem X8_snapshot_needs_every_read d n n_samples size st :
  1 <= n ->
  ((forall c, 0 <= c < n -> 0 <= fst (dev_read d c)) ->
   new_bytes_ok d = true ->
   exists st' t',
     acquisition_loop d n n_samples size (Z.to_nat n) 0 st [] = (Ok st', t') /\
     last_buf_obj st' = mp_obj_new_bytes (snd (dev_read d (n - 1))) size) /\
  ((forall c, 0 <= c < n -> 0 <= fst (dev_read d c)) ->
   new_bytes_ok d = false ->
   exists t',
     acquisition_loop d n n_samples size (Z.to_nat n) 0 st [] = (Raise MemoryError, t')) /\
  ((exists c, 0 <= c < n /\ fst (dev_read d c) < 0) ->
   exists st' t',
     acquisition_loop d n n_samples size (Z.to_nat n) 0 st [] = (Ok st', t') /\
     last_buf_obj st' = last_buf_obj st).
Proof.
  intros Hn. split; [| split].
  - intros Hall Hroom.
    apply acquisition_loop_all_reads_succeed; [lia | lia | exact Hall | exact Hroom].
  - intros Hall Hroom.
    apply acquisition_loop_no_room; [lia | lia | exact Hall | exact Hroom].
  - intros Hfail. apply acquisition_loop_some_read_fails; [lia | exact Hfail].
Qed.

Lemma X8_snapshot_witness :
  (exists st' t',
     acquisition_loop (driver_ok 0 [x01; x00]) 3 1 2 (Z.to_nat 3) 0 locals_init [] =
       (Ok st', t') /\
     last_buf_obj st' = mp_obj_new_bytes (mem_of_list [x01; x00]) 2) /\
  (exists t',
     acquisition_loop (driver_heap_full 0 [x01; x00]) 3 1 2 (Z.to_nat 3) 0 locals_init [] =
       (Raise MemoryError, t')) /\
  (exists st' t',
     acquisition_loop
       {| new_adc_data_ok := true; dev_new_ok := true; dev_open_ret := ESP_OK;
          malloc_ok := true;
          dev_read := fun chunk => (if chunk =? 2 then -1 else 0, mem_of_list [x01; x00]);
          new_bytes_ok := true |}
       3 1 2 (Z.to_nat 3) 0 locals_init [] = (Ok st', t') /\
     last_buf_obj st' = mp_const_none).
Proof.
  split; [| split].
  - apply (X8_snapshot_needs_every_read (driver_ok 0 [x01; x00]) 3 1 2 locals_init).
    + lia.
    + intros c Hc. cbn. lia.
    + reflexivity.
  - apply (X8_snapshot_needs_every_read (driver_heap_full 0 [x01; x00]) 3 1 2 locals_init).
    + lia.
    + intros c Hc. cbn. lia.
    + reflexivity.
  - apply (X8_snapshot_needs_every_read
             {| new_adc_data_ok := true; dev_new_ok := true; dev_open_ret := ESP_OK;
                malloc_ok := true;
                dev_read := fun chunk => (if chunk =? 2 then -1 else 0, mem_of_list [x01; x00]);
                new_bytes_ok := true |}
             3 1 2 locals_init).
    + lia.
    + exists 2. cbn. lia.
Defined.

Lemma count_events_app p t u :
  count_events p (t ++ u) = (count_events p t + count_events p u)%nat.
Proof.
  induction t as [| ev t IH]; cbn [app count_events]; [reflexivity |].
  rewrite IH. lia.
Qed.

(** The trace the loop produces: either no read in it failed, or the one
    failed read is its last event. *)
Lemma acquisition_loop_trace_shape d n_chunks n_samples size k :
  forall chunk st t,
    Forall (fun ev => is_failed_read ev = false) t ->
    Forall (fun ev => is_failed_read ev = false)
      (snd (acquisition_loop d n_chunks n_samples size k chunk st t)) \/
    exists t' ev,
      snd (acquisition_loop d n_chunks n_samples size k chunk st t) = t' ++ [ev] /\
      Forall (fun ev => is_failed_read ev = false) t' /\
      is_failed_read ev = true.
Proof.
  induction k as [| k IH]; intros chunk st t Ht.
  - left. exact Ht.
  - assert (forall r, (r <? 0) = false ->
              Forall (fun ev => is_failed_read ev = false)
                (t ++ [Ev_esp_task_wdt_reset; Ev_esp_codec_dev_read (to_int size) r;
                       Ev_vTaskDelay_ms 1] ++
                      (if chunk =? n_chunks - 1 then [Ev_mp_obj_new_bytes size] else [])))
      as Hgood.
    { intros r Hge. apply Forall_app. split; [exact Ht |].
      destruct (chunk =? n_chunks - 1); repeat constructor; cbn; exact Hge. }
    loop_turn d chunk n_chunks Hr Hlast Hroom.
    + right. cbn [snd].
      exists (t ++ [Ev_esp_task_wdt_reset]),
             (Ev_esp_codec_dev_read (to_int size) (fst (dev_read d chunk))).
      split; [rewrite <- app_assoc; reflexivity |].
      split.
      * apply Forall_app. split; [exact Ht |]. repeat constructor.
      * cbn. apply Z.ltb_lt. exact Hr.
    + apply IH. apply Hgood. lia.
    + left. cbn [snd]. subst chunk.
      specialize (Hgood (fst (dev_read d (n_chunks - 1)))).
      rewrite Z.eqb_refl in Hgood. apply Hgood. lia.
    + apply IH. apply Hgood. lia.
Qed.

Lemma acquisition_loop_counts d n_chunks n_samples size k :
  forall chunk st t,
    count_events is_wdt_reset t = count_events is_read t ->
    count_events is_yield t = count_events is_good_read t ->
    let t' := snd (acquisition_loop d n_chunks n_samples size k chunk st t) in
    count_events is_wdt_reset t' = count_events is_read t' /\
    count_events is_yield t' = count_events is_good_read t' /\
    (count_events is_read t' <= count_events is_read t + k)%nat.
Proof.
  induction k as [| k IH]; intros chunk st t Hw Hy; cbv zeta.
  - cbn [acquisition_loop snd mret M_ret]. repeat split; [exact Hw | exact Hy | lia].
  - assert ((fst (dev_read d chunk) <? 0) = true \/ (fst (dev_read d chunk) <? 0) = false)
      as Hsign by (destruct (fst (dev_read d chunk) <? 0); auto).
    loop_turn d chunk n_chunks Hr Hlast Hroom.
    + cbn [snd].
      rewrite !count_events_app. cbn [count_events is_wdt_reset is_read is_yield is_good_read].
      assert ((fst (dev_read d chunk) <? 0) = true) as -> by lia.
      cbn [negb]. lia.
    + subst chunk.
      assert ((fst (dev_read d (n_chunks - 1)) <? 0) = false) as Hge by lia.
      rewrite Z.eqb_refl. cbn [app].
      match goal with
      | |- context [acquisition_loop _ _ _ _ k ?c ?s ?u] =>
          destruct (IH c s u) as (H1 & H2 & H3);
            [ rewrite !count_events_app;
              cbn [app count_events is_wdt_reset is_read]; lia
            | rewrite !count_events_app;
              cbn [app count_events is_yield is_good_read]; rewrite Hge;
              cbn [negb]; lia
            | split; [exact H1 |]; split; [exact H2 |];
              rewrite !count_events_app in H3;
              cbn [app count_events is_read] in H3; lia ]
      end.
    + assert ((fst (dev_read d chunk) <? 0) = false) as Hge by lia.
      cbn [snd]. rewrite !count_events_app.
      cbn [count_events is_wdt_reset is_read is_yield is_good_read].
      rewrite Hge. cbn [negb]. lia.
    + assert ((fst (dev_read d chunk) <? 0) = false) as Hge by lia.
      assert ((chunk =? n_chunks - 1) = false) as -> by lia. cbn [app].
      match goal with
      | |- context [acquisition_loop _ _ _ _ k ?c ?s ?u] =>
          destruct (IH c s u) as (H1 & H2 & H3);
            [ rewrite !count_events_app;
              cbn [app count_events is_wdt_reset is_read]; lia
            | rewrite !count_events_app;
              cbn [app count_events is_yield is_good_read]; rewrite Hge;
              cbn [negb]; lia
            | split; [exact H1 |]; split; [exact H2 |];
              rewrite !count_events_app in H3;
              cbn [app count_events is_read] in H3; lia ]
      end.
Qed.

(** X9.  The loop stops at the first failed read: in its trace a read that
    returned a negative value is the last event; the loop resets the watchdog
    once per read, yields once per successful read, and reads at most once
    per iteration.  A whole call reads at most once. *)
Theorem X9_loop_stops_at_failed_read d :
  (forall n_chunks n_samples size k chunk st pre ev post,
     snd (acquisition_loop d n_chunks n_samples size k chunk st []) = pre ++ ev :: post ->
     is_failed_read ev = true ->
     post = []) /\
  (forall n_chunks n_samples size k chunk st,
     count_events is_wdt_reset
       (snd (acquisition_loop d n_chunks n_samples size k chunk st [])) =
     count_events is_read
       (snd (acquisition_loop d n_chunks n_samples size k chunk st [])) /\
     count_events is_yield
       (snd (acquisition_loop d n_chunks n_samples size k chunk st [])) =
     count_events is_good_read
       (snd (acquisition_loop d n_chunks n_samples size k chunk st [])) /\
     (count_events is_read
        (snd (acquisition_loop d n_chunks n_samples size k chunk st [])) <= k)%nat) /\
  (forall a, (count_events is_read (trace d a) <= 1)%nat).
Proof.
  split; [| split].
  - intros n_chunks n_samples size k chunk st pre ev post Ht Hev.
    destruct (acquisition_loop_trace_shape d n_chunks n_samples size k chunk st [])
      as [Hall | (t' & ev' & Hshape & Hall & _)]; [constructor | |].
    + rewrite Ht in Hall. apply Forall_app in Hall as [_ Hall].
      apply Forall_cons in Hall as [Hev' _]. congruence.
    + rewrite Ht in Hshape.
      destruct post as [| x post _] using rev_ind; [reflexivity |].
      change (pre ++ ev :: post ++ [x]) with (pre ++ (ev :: post) ++ [x]) in Hshape.
      rewrite app_assoc in Hshape.
      apply app_inj_tail in Hshape as [Hshape _]. subst t'.
      apply Forall_app in Hall as [_ Hall].
      apply Forall_cons in Hall as [Hev' _]. congruence.
  - intros n_chunks n_samples size k chunk st.
    apply (acquisition_loop_counts d n_chunks n_samples size k chunk st []); reflexivity.
  - intros a. rewrite trace_body.
    body_cases d a E; cbn; lia.
Qed.

Lemma X9_loop_stops_witness :
  exists post,
    snd (acquisition_loop
           {| new_adc_data_ok := true; dev_new_ok := true; dev_open_ret := ESP_OK;
              malloc_ok := true;
              dev_read := fun chunk => (if chunk =? 1 then -1 else 0, mem_of_list []);
              new_bytes_ok := true |}
           3 0 0 3 0 locals_init []) =
      [Ev_esp_task_wdt_reset; Ev_esp_codec_dev_read 0 0; Ev_vTaskDelay_ms 1;
       Ev_esp_task_wdt_reset] ++ Ev_esp_codec_dev_read 0 (-1) :: post /\
    post = [].
Proof.
  exists []. split; [reflexivity |].
  destruct (X9_loop_stops_at_failed_read
              {| new_adc_data_ok := true; dev_new_ok := true; dev_open_ret := ESP_OK;
                 malloc_ok := true;
                 dev_read := fun chunk => (if chunk =? 1 then -1 else 0, mem_of_list []);
              new_bytes_ok := true |})
    as [Hstop _].
  apply (Hstop 3 0 0 3%nat 0 locals_init
           [Ev_esp_task_wdt_reset; Ev_esp_codec_dev_read 0 0; Ev_vTaskDelay_ms 1;
            Ev_esp_task_wdt_reset]
           (Ev_esp_codec_dev_read 0 (-1)) []); reflexivity.
Defined.

(** ** Which outcome, and when *)

(** The call is its decision list: the first failing step decides. *)
Lemma outcome_decided d a :
  wf_args a = true -> outcome d a = outcome_by_first_failure d a.
Proof.
  intros Hwf. rewrite outcome_body. unfold outcome_by_first_failure.
  body_cases d a E; cbn [fst];
    try match goal with
        | Hv : validation_ok a = true |- _ =>
            destruct (validation_ok_inv a Hv) as [-> ->]
        end;
    try match goal with
        | Hs : setup_ok d = true |- _ =>
            destruct (setup_ok_inv d Hs) as (-> & -> & -> & ->)
        end;
    try match goal with
        | Hr : 0 <= fst (dev_read d 0) |- _ =>
            assert ((fst (dev_read d 0) <? 0) = false) as -> by lia
        end;
    try match goal with
        | Hr : fst (dev_read d 0) < 0 |- _ =>
            assert ((fst (dev_read d 0) <? 0) = true) as -> by lia
        end;
    repeat match goal with
           | H : _ = true |- _ => rewrite H
           | H : _ = false |- _ => rewrite H
           | H : dev_open_ret d = ESP_OK |- _ => rewrite H
           end;
    cbn [negb Z.eqb ESP_OK]; try reflexivity.
  - (* a fault needs arguments the runtime cannot supply *)
    match goal with
    | Hv : validation_ok a = true |- _ =>
        destruct (narrow_channels_validated a Hwf Hv) as [channels Hch]; congruence
    end.
  - assert ((dev_open_ret d =? ESP_OK) = false) as -> by (apply Z.eqb_neq; assumption).
    reflexivity.
Qed.

Ltac decide_outcome d a :=
  unfold outcome_by_first_failure, validation_ok, setup_ok;
  destruct (arg_adc_channel_num a >? 10);
  destruct (channel_list_len a <? to_size_t (arg_adc_channel_num a));
  destruct (new_adc_data_ok d);
  destruct (dev_new_ok d);
  destruct (Z.eqb_spec (dev_open_ret d) ESP_OK);
  destruct (malloc_ok d);
  destruct (Z.ltb_spec (fst (dev_read d 0)) 0);
  destruct (new_bytes_ok d);
  cbn [negb andb].

Ltac close_outcome :=
  repeat match goal with
         | |- _ /\ _ => split
         | |- _ <-> _ => split
         | |- _ <> _ => intros ?
         | |- _ -> _ => intros ?
         | H : _ /\ _ |- _ => destruct H
         | H : _ \/ _ |- _ => destruct H
         | H : exists _, _ |- _ => destruct H
         end;
  try discriminate; try congruence; try lia.



(** X11.  [RuntimeError] is raised exactly when validation passes and one
    of the three device steps fails, and it carries a status only for a
    failed open, the status the driver returned; [OSError] is raised
    exactly when those steps pass and the allocation fails, and its errno
    is always [ENOMEM]. *)
Theorem X11_which_exception d a :
  wf_args a = true ->
  ((exists msg v, outcome d a = Raise (RuntimeError msg v)) <->
   validation_ok a = true /\
   (new_adc_data_ok d = false \/ dev_new_ok d = false \/ dev_open_ret d <> ESP_OK)) /\
  (forall msg status,
     outcome d a = Raise (RuntimeError msg (Some status)) ->
     status = dev_open_ret d /\ status <> ESP_OK /\
     new_adc_data_ok d = true /\ dev_new_ok d = true) /\
  ((exists errno, outcome d a = Raise (OSError errno)) <->
   validation_ok a = true /\ new_adc_data_ok d = true /\ dev_new_ok d = true /\
   dev_open_ret d = ESP_OK /\ malloc_ok d = false) /\
  (forall errno, outcome d a = Raise (OSError errno) -> errno = ENOMEM).
Proof.
  intros Hwf. rewrite (outcome_decided d a Hwf).
  decide_outcome d a; close_outcome; eauto.
Qed.

Lemma X11_which_exception_witness :
  ((exists msg v, outcome stereo_driver stereo_args = Raise (RuntimeError msg v)) <->
   validation_ok stereo_args = true /\
   (new_adc_data_ok stereo_driver = false \/ dev_new_ok stereo_driver = false \/
    dev_open_ret stereo_driver <> ESP_OK)) /\
  (forall msg status,
     outcome stereo_driver stereo_args = Raise (RuntimeError msg (Some status)) ->
     status = dev_open_ret stereo_driver /\ status <> ESP_OK /\
     new_adc_data_ok stereo_driver = true /\ dev_new_ok stereo_driver = true) /\
  ((exists errno, outcome stereo_driver stereo_args = Raise (OSError errno)) <->
   validation_ok stereo_args = true /\ new_adc_data_ok stereo_driver = true /\
   dev_new_ok stereo_driver = true /\ dev_open_ret stereo_driver = ESP_OK /\
   malloc_ok stereo_driver = false) /\
  (forall errno, outcome stereo_driver stereo_args = Raise (OSError errno) -> errno = ENOMEM).
Proof. apply X11_which_exception. reflexivity. Defined.

(** ** Which memory the call reads (lines 122-149) *)

Lemma min_max_loop_agree n : forall i m1 m2 gmin gmax,
  (forall k : nat, (2 * i <= k < 2 * (i + n))%nat -> m1 k = m2 k) ->
  min_max_loop n i m1 gmin gmax = min_max_loop n i m2 gmin gmax.
Proof.
  induction n as [| n IH]; intros i m1 m2 gmin gmax Hagree; [reflexivity |].
  cbn [min_max_loop].
  assert (audio_buffer m1 i = audio_buffer m2 i) as ->.
  { unfold audio_buffer. rewrite !Hagree by lia. reflexivity. }
  apply IH. intros k Hk. apply Hagree. lia.
Qed.

Lemma map_seq_agree n (m1 m2 : memory) :
  mem_agree n m1 m2 -> map m1 (seq 0 n) = map m2 (seq 0 n).
Proof.
  intros Hagree. apply map_ext_in. intros k Hk.
  apply in_seq in Hk. apply Hagree. lia.
Qed.

(** With at least one channel and a byte count that fits [size_t], the
    samples the min/max loop visits all lie inside the buffer. *)
Lemma stats_fit_buffer a :
  1 <= arg_adc_channel_num a ->
  chunk_samples a * arg_adc_channel_num a * 2 < 2 ^ 32 ->
  chunk_samples a * 2 <= buf_size a.
Proof.
  intros Hc Hfit.
  pose proof (to_size_t_range (arg_chunk_samples a)) as Hn. fold (chunk_samples a) in Hn.
  destruct (Z.eq_dec (chunk_samples a) 0) as [Hzero | Hpos].
  - rewrite Hzero. pose proof (buf_size_range a). lia.
  - rewrite buf_size_mod by (unfold SIZE_MOD in *; nia).
    unfold SIZE_MOD. rewrite Z.mod_small by nia. nia.
Qed.

Lemma run_body_with_memory d m' a :
  wf_args a = true -> validation_ok a = true ->
  chunk_samples a * 2 <= buf_size a ->
  mem_agree (Z.to_nat (buf_size a)) (snd (dev_read d 0)) m' ->
  run (adc_mic_read_body (with_memory d m') a) = run (adc_mic_read_body d a).
Proof.
  intros Hwf Hv Hfit Hagree.
  destruct (narrow_channels_validated a Hwf Hv) as [channels Hch].
  pose proof (to_size_t_range (arg_chunk_samples a)) as Hn. fold (chunk_samples a) in Hn.
  destruct (new_adc_data_ok d) eqn:Hif.
  2: { rewrite (run_no_data_if d a channels), (run_no_data_if (with_memory d m') a channels);
         auto. }
  destruct (dev_new_ok d) eqn:Hdev.
  2: { rewrite (run_no_dev d a channels), (run_no_dev (with_memory d m') a channels);
         auto. }
  destruct (Z.eq_dec (dev_open_ret d) ESP_OK) as [Hopen | Hopen].
  2: { rewrite (run_open_failed d a channels), (run_open_failed (with_memory d m') a channels);
         auto. }
  destruct (malloc_ok d) eqn:Hmem.
  2: { rewrite (run_no_mem d a channels), (run_no_mem (with_memory d m') a channels);
         auto. }
  assert (setup_ok d = true) as Hs.
  { unfold setup_ok. rewrite Hif, Hdev, Hopen, Hmem. reflexivity. }
  assert (setup_ok (with_memory d m') = true) as Hs' by exact Hs.
  destruct (Z_lt_le_dec (fst (dev_read d 0)) 0) as [Hr | Hr].
  - destruct (run_read_failed d a Hwf Hv Hs Hr) as (c1 & Hc1 & ->).
    destruct (run_read_failed (with_memory d m') a Hwf Hv Hs' Hr) as (c2 & Hc2 & ->).
    replace c2 with c1 by congruence. reflexivity.
  - destruct (new_bytes_ok d) eqn:Hroom.
    + destruct (run_read_ok d a Hwf Hv Hs Hr Hroom) as (c1 & Hc1 & ->).
      destruct (run_read_ok (with_memory d m') a Hwf Hv Hs' Hr Hroom) as (c2 & Hc2 & ->).
      replace c2 with c1 by congruence.
      cbn [with_memory dev_read fst snd].
      rewrite (min_max_loop_agree (Z.to_nat (chunk_samples a)) 0 m' (snd (dev_read d 0))).
      * unfold mp_obj_new_bytes.
        rewrite (map_seq_agree _ _ _ Hagree). reflexivity.
      * intros k Hk. symmetry. apply Hagree. lia.
    + destruct (run_snapshot_failed d a Hwf Hv Hs Hr Hroom) as (c1 & Hc1 & ->).
      destruct (run_snapshot_failed (with_memory d m') a Hwf Hv Hs' Hr Hroom)
        as (c2 & Hc2 & ->).
      replace c2 with c1 by congruence. reflexivity.
Qed.

(** X12.  With at least one channel and a byte count
    [chunk_samples * adc_channel_num * 2] below 2^32, a call reads nothing
    outside the [buf_size] bytes of its buffer: replacing the rest of memory
    changes neither the result, nor the trace, nor the statistics. *)
Theorem X12_reads_stay_in_buffer d m' a :
  wf_args a = true -> validation_ok a = true ->
  1 <= arg_adc_channel_num a ->
  chunk_samples a * arg_adc_channel_num a * 2 < 2 ^ 32 ->
  mem_agree (Z.to_nat (buf_size a)) (snd (dev_read d 0)) m' ->
  run (adc_mic_read (with_memory d m') a) = run (adc_mic_read d a) /\
  final_locals (with_memory d m') a = final_locals d a.
Proof.
  intros Hwf Hv Hc Hfit Hagree.
  pose proof (stats_fit_buffer a Hc Hfit) as Hin.
  pose proof (run_body_with_memory d m' a Hwf Hv Hin Hagree) as E.
  split.
  - rewrite !run_adc_mic_read, E. reflexivity.
  - unfold final_locals. rewrite E. reflexivity.
Qed.

Lemma X12_reads_stay_in_buffer_witness :
  run (adc_mic_read (with_memory stereo_driver (mem_of_list [x00; x00; x05; x00; xff]))
         stereo_args) =
    run (adc_mic_read stereo_driver stereo_args) /\
  final_locals (with_memory stereo_driver (mem_of_list [x00; x00; x05; x00; xff]))
    stereo_args =
    final_locals stereo_driver stereo_args.
Proof.
  apply X12_reads_stay_in_buffer.
  - reflexivity.
  - reflexivity.
  - cbn. lia.
  - vm_compute. reflexivity.
  - intros k Hk.
    change (Z.to_nat (buf_size stereo_args)) with 4%nat in Hk.
    do 4 (destruct k as [| k]; [reflexivity |]). lia.
Defined.

(** ** Zero channels, zero samples (lines 39-44, 98-99, 130-134) *)

Lemma buf_size_zero a :
  chunk_samples a = 0 \/ arg_adc_channel_num a = 0 -> buf_size a = 0.
Proof.
  unfold buf_size, size_mul. intros [-> | ->].
  - reflexivity.
  - change (to_size_t 0) with 0. rewrite Z.mul_0_r. reflexivity.
Qed.




(** X14.  With [chunk_samples = 0] nothing is rejected: the call asks the
    allocator for 0 bytes, reads 0 bytes and, when the read succeeds and
    the runtime heap has room for the result, returns the empty bytes
    object with the statistics untouched. *)
Theorem X14_zero_samples d a :
  wf_args a = true -> validation_ok a = true ->
  chunk_samples a = 0 ->
  setup_ok d = true -> 0 <= fst (dev_read d 0) -> new_bytes_ok d = true ->
  In (Ev_heap_caps_malloc 0 true) (trace d a) /\
  In (Ev_esp_codec_dev_read 0 (fst (dev_read d 0))) (trace d a) /\
  outcome d a = Ok (mp_obj_bytes []) /\
  final_locals d a =
    Ok {| global_min := 32767; global_max := -32768; last_buf_obj := mp_obj_bytes [] |}.
Proof.
  intros Hwf Hv Hzero Hs Hr Hroom.
  assert (buf_size a = 0) as Hsz by (apply buf_size_zero; auto).
  destruct (setup_ok_inv d Hs) as (_ & _ & _ & Hmem).
  destruct (run_read_ok d a Hwf Hv Hs Hr Hroom) as (channels & _ & E).
  rewrite trace_body, E. unfold setup_events. rewrite Hsz, Hmem.
  change (to_int 0) with 0. cbn [snd app].
  split; [cbn; tauto |]. split; [cbn; tauto |]. split.
  - rewrite (read_success_outcome d a Hwf Hv Hs Hr Hroom), Hsz. reflexivity.
  - unfold final_locals. rewrite E, Hsz, Hzero. reflexivity.
Qed.

Lemma X14_zero_samples_witness :
  In (Ev_heap_caps_malloc 0 true) (trace stereo_driver (Args 0 0 [0; 1] 2 16000 0)) /\
  In (Ev_esp_codec_dev_read 0 (fst (dev_read stereo_driver 0)))
     (trace stereo_driver (Args 0 0 [0; 1] 2 16000 0)) /\
  outcome stereo_driver (Args 0 0 [0; 1] 2 16000 0) = Ok (mp_obj_bytes []) /\
  final_locals stereo_driver (Args 0 0 [0; 1] 2 16000 0) =
    Ok {| global_min := 32767; global_max := -32768; last_buf_obj := mp_obj_bytes [] |}.
Proof.
  apply X14_zero_samples;
    [reflexivity | reflexivity | reflexivity | reflexivity | vm_compute; discriminate
    | reflexivity].
Defined.

(** ** Where the buffer is used (lines 67-165) *)

(** Walk the rest of a trace in which no event uses the buffer. *)
Ltac no_buffer_use :=
  try match goal with
      | Hlook : _ !! _ = Some _ |- _ => progress cbn in Hlook
      end;
  repeat match goal with
         | Hlook : (_ :: _) !! ?i = Some _, Huse : uses_buffer _ = true |- _ =>
             destruct i as [| ?];
             [cbn in Hlook; injection Hlook as <-; discriminate Huse | cbn in Hlook]
         end;
  match goal with
  | Hlook : _ !! _ = Some _ |- _ => cbn in Hlook; discriminate Hlook
  | Hlook : None = Some _ |- _ => discriminate Hlook
  end.

Ltac at_buffer_use :=
  cbn;
  repeat match goal with
         | |- _ /\ _ => split
         | |- _ -> _ => intros ?
         | H : exists _, _ |- _ => destruct H
         end;
  solve [lia | reflexivity | congruence].

(** X15.  A read or a snapshot occurs only in a call whose four set-up
    steps all succeeded, after those four calls (data interface, device,
    open, allocation: the first four events) and with nothing released up
    to it: the buffer is never read into or copied before it is allocated
    and the device open, nor after it is freed.  When the call returns, the
    four teardown calls (free, close, delete, delete data interface) are
    the last four events, after every use; when the snapshot leaves by
    [MemoryError] the trace ends with it and nothing is released at all. *)
Theorem X15_buffer_used_after_setup_before_teardown d a (i : nat) ev :
  trace d a !! i = Some ev -> uses_buffer ev = true ->
  setup_ok d = true /\
  (exists channels, take 4 (trace d a) = setup_events d a channels) /\
  acquired (take 4 (trace d a)) = [R_data_if; R_device; R_open; R_buffer] /\
  (4 <= i)%nat /\
  released (take (S i) (trace d a)) = [] /\
  ((exists o, outcome d a = Ok o) ->
   (i + 4 < length (trace d a))%nat /\
   drop (length (trace d a) - 4) (trace d a) = teardown_events) /\
  (outcome d a = Raise MemoryError ->
   released (trace d a) = [] /\
   last (trace d a) = Some (Ev_mp_obj_new_bytes (buf_size a))).
Proof.
  rewrite outcome_body, trace_body.
  body_cases d a E; cbn [fst snd]; intros Hlook Huse;
    try match goal with
        | Hs : setup_ok d = true |- _ =>
            pose proof (setup_ok_inv d Hs) as (_ & _ & Hopen & Hmem)
        end;
    unfold setup_events, teardown_events in *;
    try rewrite Hmem in *; cbn [app] in *.
  1-7: no_buffer_use.
  - split; [assumption |]. split; [eexists; reflexivity |].
    split; [cbn; rewrite Hopen; reflexivity |].
    do 4 (destruct i as [| i];
          [cbn in Hlook; injection Hlook as <-; discriminate Huse | cbn in Hlook]).
    do 2 (destruct i as [| i]; [at_buffer_use |]).
    no_buffer_use.
  - split; [assumption |]. split; [eexists; reflexivity |].
    split; [cbn; rewrite Hopen; reflexivity |].
    do 4 (destruct i as [| i];
          [cbn in Hlook; injection Hlook as <-; discriminate Huse | cbn in Hlook]).
    do 4 (destruct i as [| i]; [at_buffer_use |]).
    no_buffer_use.
  - split; [assumption |]. split; [eexists; reflexivity |].
    split; [cbn; rewrite Hopen; reflexivity |].
    do 4 (destruct i as [| i];
          [cbn in Hlook; injection Hlook as <-; discriminate Huse | cbn in Hlook]).
    do 4 (destruct i as [| i]; [at_buffer_use |]).
    no_buffer_use.
Qed.

Lemma X15_buffer_used_witness :
  setup_ok stereo_driver = true /\
  (exists channels,
     take 4 (trace stereo_driver stereo_args) =
       setup_events stereo_driver stereo_args channels) /\
  acquired (take 4 (trace stereo_driver stereo_args)) =
    [R_data_if; R_device; R_open; R_buffer] /\
  (4 <= 5)%nat /\
  released (take 6 (trace stereo_driver stereo_args)) = [] /\
  ((exists o, outcome stereo_driver stereo_args = Ok o) ->
   (5 + 4 < length (trace stereo_driver stereo_args))%nat /\
   drop (length (trace stereo_driver stereo_args) - 4) (trace stereo_driver stereo_args) =
     teardown_events) /\
  (outcome stereo_driver stereo_args = Raise MemoryError ->
   released (trace stereo_driver stereo_args) = [] /\
   last (trace stereo_driver stereo_args) =
     Some (Ev_mp_obj_new_bytes (buf_size stereo_args))).
Proof.
  apply (X15_buffer_used_after_setup_before_teardown stereo_driver stereo_args 5
           (Ev_esp_codec_dev_read 4 0)); reflexivity.
Defined.

(** ** The returned bytes as samples (lines 131, 149) *)

(** X16.  What a call returns after a successful read and a snapshot that
    found room on the runtime heap decodes, two bytes per sample and
    low byte first, to exactly the samples the buffer holds: sample [i] of
    the returned bytes is [audio_buffer[i]] for every [i] below
    [buf_size / 2], and there is no sample from that index on. *)
Theorem X16_returned_bytes_are_the_samples d a :
  wf_args a = true -> validation_ok a = true -> setup_ok d = true ->
  0 <= fst (dev_read d 0) -> new_bytes_ok d = true ->
  exists bs,
    outcome d a = Ok (mp_obj_bytes bs) /\
    (forall i : nat,
       Z.of_nat i < buf_size a / 2 ->
       sample_of_bytes bs i = Some (audio_buffer (snd (dev_read d 0)) i)) /\
    (forall i : nat,
       buf_size a / 2 <= Z.of_nat i -> sample_of_bytes bs i = None).
Proof.
  intros Hwf Hv Hs Hr Hroom.
  pose proof (buf_size_range a) as Hb.
  pose proof (buf_size_even a) as Heven.
  assert (buf_size a = 2 * (buf_size a / 2)) as Hhalf.
  { rewrite (Z.div_mod (buf_size a) 2) at 1 by lia. lia. }
  eexists. split; [apply read_success_outcome; assumption |].
  split; intros i Hi; unfold sample_of_bytes; rewrite !lookup_map_seq.
  - repeat case_decide; try lia. reflexivity.
  - repeat case_decide; try lia; reflexivity.
Qed.

Lemma X16_returned_bytes_witness :
  exists bs,
    outcome stereo_driver stereo_args = Ok (mp_obj_bytes bs) /\
    (forall i : nat,
       Z.of_nat i < buf_size stereo_args / 2 ->
       sample_of_bytes bs i = Some (audio_buffer (snd (dev_read stereo_driver 0)) i)) /\
    (forall i : nat,
       buf_size stereo_args / 2 <= Z.of_nat i -> sample_of_bytes bs i = None).
Proof.
  apply X16_returned_bytes_are_the_samples;
    [reflexivity | reflexivity | reflexivity | vm_compute; discriminate | reflexivity].
Defined.
